(** * Architecta core: workflow state machine, router, conversation engine,
      review scorer.

    Shallow embedding of
      packages/architecta/packages/core/src/orchestrator/state.ts
      packages/architecta/packages/core/src/orchestrator/index.ts
      packages/architecta/packages/core/src/sessions/planner-tools.ts
      packages/architecta/packages/core/src/sessions/reviewer.ts
      packages/architecta/packages/core/src/types.ts

    JavaScript strings are sequences of UTF-16 code units; they are modelled
    as [list N].  Objects held in the module-level [Map] are modelled by an
    explicit store ([gmap]) that every operation threads through.  The agent
    is an external collaborator: its replies are supplied as a script. *)

From Stdlib Require Import ZArith NArith Lia Bool Ascii String DecimalString DecimalN.
From stdpp Require Import gmap list.

Local Open Scope Z_scope.

(** ** JavaScript strings *)

Abbreviation jsstring := (list N).

(** An ASCII source literal as a sequence of code units. *)
Definition lit (s : string) : jsstring :=
  map N_of_ascii (list_ascii_of_string s).

(** Truthiness of a string value: only the empty string is falsy. *)
Definition truthy (s : jsstring) : bool :=
  match s with [] => false | _ :: _ => true end.

(** [a || b] on a possibly-undefined string. *)
Definition or_else (a : option jsstring) (b : jsstring) : jsstring :=
  match a with
  | Some s => if truthy s then s else b
  | None => b
  end.

(** Template-literal rendering of integral numbers. *)
Definition show_N (n : N) : jsstring :=
  lit (NilEmpty.string_of_uint (N.to_uint n)).

Definition show_Z (z : Z) : jsstring :=
  lit (NilEmpty.string_of_int (Z.to_int z)).

(** [xs.join(sep)] *)
Fixpoint join (sep : jsstring) (xs : list jsstring) : jsstring :=
  match xs with
  | [] => []
  | [x] => x
  | x :: rest => x ++ sep ++ join sep rest
  end.

Definition quote : jsstring := [34%N].
Definition nl : jsstring := [10%N].

(** ** types.ts *)

Inductive Phase := idle | planning | reviewing | complete.

Inductive ConfidenceLevel := high | medium | low.

Record Playbook := {
  pb_type : jsstring;
  pb_name : jsstring;
  pb_description : jsstring;
  pb_reasoning : jsstring;
}.

Inductive ReviewAction :=
| RA_approve
| RA_request_changes (issues : list jsstring)
| RA_iterate (reason : jsstring)
| RA_escalate (reason : jsstring).

(** A task object.  The same shape serves for the tool input (where the
    source types [humanRole], [risk], [complexity], [dependsOn] as optional
    and [status] is absent) and for the assembled [Task]; a missing property
    is [None]. *)
Record Task := {
  id : Z;
  title : jsstring;
  description : jsstring;
  humanRole : option jsstring;
  humanActionType : option jsstring;
  humanActionDetail : option jsstring;
  risk : option jsstring;
  complexity : option jsstring;
  dependsOn : option (list Z);
  requirements : list jsstring;
  acceptanceCriteria : list jsstring;
  status : option jsstring;
}.

Record Plan := {
  raw : jsstring;
  repo : jsstring;
  flow : list jsstring;
  plan_title : jsstring;
  playbook : Playbook;
  tasks : list Task;
}.

Record CriteriaResult := {
  taskId : Z;
  criterion : jsstring;
  passed : bool;
  evidence : jsstring;
}.

Record ReviewResult := {
  planId : jsstring;
  confidence : N;
  confidenceLevel : ConfidenceLevel;
  criteriaResults : list CriteriaResult;
  issues : list jsstring;
  summary : jsstring;
  recommendedAction : ReviewAction;
}.

Inductive ImplementationType := impl_pr | impl_branch | impl_local.

Record Implementation := {
  impl_type : ImplementationType;
  identifier : jsstring;
  diff : option jsstring;
  files : option (list jsstring);
}.

(** Timestamps are readings of an external clock, passed explicitly. *)
Record WorkflowState := {
  wf_id : jsstring;
  phase : Phase;
  requirement : option jsstring;
  plan : option Plan;
  implementation : option Implementation;
  reviews : list ReviewResult;
  iterations : Z;
  createdAt : Z;
  updatedAt : Z;
}.

Record Thresholds := { th_high : Z; th_medium : Z }.

(** [maxIterations] is a number of iterations and is kept as an integer;
    the source types it [number]. *)
Record OrchestratorConfig := {
  workDir : jsstring;
  maxIterations : Z;
  confidenceThresholds : Thresholds;
  autoApproveHighConfidence : bool;
}.

Record Option_ := {
  opt_value : jsstring;
  opt_label : jsstring;
  opt_description : option jsstring;
}.

Record ClarifyingQuestion := {
  q_id : jsstring;
  question : jsstring;
  options : list Option_;
  allowMultiple : option bool;
}.

Inductive SessionEvent :=
| ev_thinking (message : jsstring)
| ev_output (text : jsstring)
| ev_questions (questions : list ClarifyingQuestion)
| ev_playbook_proposed (p : Playbook)
| ev_plan_ready (p : Plan)
| ev_review_ready (r : ReviewResult)
| ev_error (error : jsstring).

(** ** orchestrator/state.ts *)

Definition createWorkflow (now : Z) (wid : jsstring) : WorkflowState :=
  {| wf_id := wid; phase := idle; requirement := None; plan := None;
     implementation := None; reviews := []; iterations := 0;
     createdAt := now; updatedAt := now |}.

Definition startPlanning (now : Z) (state : WorkflowState) (req : jsstring)
  : WorkflowState :=
  {| wf_id := wf_id state; phase := planning; requirement := Some req;
     plan := plan state; implementation := implementation state;
     reviews := reviews state; iterations := iterations state;
     createdAt := createdAt state; updatedAt := now |}.

Definition completePlanning (now : Z) (state : WorkflowState) (p : Plan)
  : WorkflowState :=
  {| wf_id := wf_id state; phase := phase state;
     requirement := requirement state;
     plan := Some p; implementation := implementation state;
     reviews := reviews state; iterations := iterations state;
     createdAt := createdAt state; updatedAt := now |}.

Definition startReview (now : Z) (state : WorkflowState) (i : Implementation)
  : WorkflowState :=
  {| wf_id := wf_id state; phase := reviewing;
     requirement := requirement state;
     plan := plan state; implementation := Some i;
     reviews := reviews state; iterations := iterations state;
     createdAt := createdAt state; updatedAt := now |}.

Definition completeReview (now : Z) (state : WorkflowState) (r : ReviewResult)
  : WorkflowState :=
  {| wf_id := wf_id state; phase := phase state;
     requirement := requirement state;
     plan := plan state; implementation := implementation state;
     reviews := reviews state ++ [r]; iterations := iterations state;
     createdAt := createdAt state; updatedAt := now |}.

Definition completeWorkflow (now : Z) (state : WorkflowState) : WorkflowState :=
  {| wf_id := wf_id state; phase := complete;
     requirement := requirement state;
     plan := plan state; implementation := implementation state;
     reviews := reviews state; iterations := iterations state;
     createdAt := createdAt state; updatedAt := now |}.

Definition startIteration (now : Z) (state : WorkflowState) : WorkflowState :=
  {| wf_id := wf_id state; phase := planning;
     requirement := requirement state;
     plan := plan state; implementation := implementation state;
     reviews := reviews state; iterations := iterations state + 1;
     createdAt := createdAt state; updatedAt := now |}.

Definition is_some {A : Type} (o : option A) : bool :=
  match o with Some _ => true | None => false end.

Definition phase_eqb (a b : Phase) : bool :=
  match a, b with
  | idle, idle | planning, planning
  | reviewing, reviewing | complete, complete => true
  | _, _ => false
  end.

Definition canTransitionTo (state : WorkflowState) (target : Phase) : bool :=
  match target with
  | idle => false
  | planning => phase_eqb (phase state) idle || phase_eqb (phase state) reviewing
  | reviewing => phase_eqb (phase state) planning && is_some (plan state)
  | complete => phase_eqb (phase state) reviewing
  end.

(** ** Orchestrator.route (orchestrator/index.ts) *)

Inductive RouteAction := act_approve | act_human_review | act_iterate | act_escalate.

Record Routed := { action : RouteAction; reason : jsstring }.

Definition is_escalate (a : ReviewAction) : bool :=
  match a with RA_escalate _ => true | _ => false end.

Definition route (config : OrchestratorConfig) (state : WorkflowState)
    (result : ReviewResult) : Routed :=
  let c := confidence result in
  match confidenceLevel result with
  | high =>
      if autoApproveHighConfidence config
      then {| action := act_approve;
              reason := lit "Confidence " ++ show_N c ++ lit "% - auto-approved" |}
      else {| action := act_human_review;
              reason := lit "Confidence " ++ show_N c ++ lit "% - quick approval needed" |}
  | medium =>
      {| action := act_human_review;
         reason := lit "Confidence " ++ show_N c ++ lit "% - review recommended" |}
  | low =>
      if maxIterations config <=? iterations state
      then {| action := act_escalate;
              reason := lit "Max iterations (" ++ show_Z (maxIterations config)
                        ++ lit ") reached with low confidence" |}
      else
        match recommendedAction result with
        | RA_escalate r => {| action := act_escalate; reason := r |}
        | RA_iterate r => {| action := act_iterate; reason := r |}
        | _ => {| action := act_iterate;
                  reason := lit "Low confidence - iteration recommended" |}
        end
  end.

(** ** sessions/planner-tools.ts: conversation engine *)

Inductive Role := user | assistant.

(** Input of the [output_plan] tool, at the type the source casts it to. *)
Record PlanInput := {
  in_title : jsstring;
  in_repo : option jsstring;
  in_flow : option (list jsstring);
  in_tasks : list Task;
}.

(** Content blocks of an agent response.  The input of a tool call is taken
    at the type the source casts it to for that tool name. *)
Inductive Block :=
| text_block (text : jsstring)
| ask_clarifying_questions (tool_id : jsstring) (questions : list ClarifyingQuestion)
| propose_playbook (tool_id : jsstring) (input : Playbook)
| output_plan (tool_id : jsstring) (input : PlanInput)
| other_tool_use (tool_id : jsstring) (name : jsstring)
| other_block.

Inductive Content :=
| c_text (s : jsstring)
| c_tool_result (tool_use_id : jsstring) (body : jsstring)
| c_blocks (blocks : list Block).

Record Message := { role : Role; content : Content }.

Record ConversationState := {
  messages : list Message;
  pendingQuestions : option (list ClarifyingQuestion);
  pendingPlaybook : option Playbook;
  acceptedPlaybook : option Playbook;
  lastToolUseId : option jsstring;
}.

Definition with_messages (st : ConversationState) (ms : list Message) :=
  {| messages := ms; pendingQuestions := pendingQuestions st;
     pendingPlaybook := pendingPlaybook st;
     acceptedPlaybook := acceptedPlaybook st;
     lastToolUseId := lastToolUseId st |}.

Definition push (st : ConversationState) (m : Message) : ConversationState :=
  with_messages st (messages st ++ [m]).

Definition with_pendingQuestions (st : ConversationState)
    (q : option (list ClarifyingQuestion)) :=
  {| messages := messages st; pendingQuestions := q;
     pendingPlaybook := pendingPlaybook st;
     acceptedPlaybook := acceptedPlaybook st;
     lastToolUseId := lastToolUseId st |}.

Definition with_pendingPlaybook (st : ConversationState) (p : option Playbook) :=
  {| messages := messages st; pendingQuestions := pendingQuestions st;
     pendingPlaybook := p;
     acceptedPlaybook := acceptedPlaybook st;
     lastToolUseId := lastToolUseId st |}.

Definition with_acceptedPlaybook (st : ConversationState) (p : option Playbook) :=
  {| messages := messages st; pendingQuestions := pendingQuestions st;
     pendingPlaybook := pendingPlaybook st;
     acceptedPlaybook := p;
     lastToolUseId := lastToolUseId st |}.

Definition with_lastToolUseId (st : ConversationState) (i : option jsstring) :=
  {| messages := messages st; pendingQuestions := pendingQuestions st;
     pendingPlaybook := pendingPlaybook st;
     acceptedPlaybook := acceptedPlaybook st;
     lastToolUseId := i |}.

Inductive StopReason := end_turn | tool_use | max_tokens | stop_sequence | stop_other.

Record Response := { resp_content : list Block; stop_reason : StopReason }.

(** One call of [messages.create]: a response, or a rejected promise. *)
Inductive AgentReply :=
| reply_ok (r : Response)
| reply_error (message : jsstring).

Inductive Exn :=
| Error (message : jsstring)
| TypeError (message : jsstring).

(** Result of an asynchronous operation.  [Awaiting] stands for an agent call
    that is still outstanding because the script of replies is used up. *)
Inductive Outcome (A : Type) :=
| Returned (a : A)
| Thrown (e : Exn)
| Awaiting.
Arguments Returned {A} a.
Arguments Thrown {A} e.
Arguments Awaiting {A}.

(** The module-level [conversationStates] map. *)
Abbreviation Store := (gmap (list N) ConversationState).

Record Run (A : Type) := {
  outcome : Outcome A;
  store_after : Store;
  emitted : list SessionEvent;
  script_after : list AgentReply;
}.
Arguments outcome {A} r.
Arguments store_after {A} r.
Arguments emitted {A} r.
Arguments script_after {A} r.

Definition fallback_playbook : Playbook :=
  {| pb_type := lit "new_feature"; pb_name := lit "New Feature";
     pb_description := lit "Adding new functionality";
     pb_reasoning := lit "Default playbook" |}.

Definition default_flow : list jsstring :=
  [lit "builder"; lit "tester"; lit "reviewer"].

(** The object literal mapped over [input.tasks]. *)
Definition defaultTask (task : Task) : Task :=
  {| id := id task; title := title task; description := description task;
     humanRole := Some (or_else (humanRole task) (lit "must_verify"));
     humanActionType := humanActionType task;
     humanActionDetail := humanActionDetail task;
     risk := Some (or_else (risk task) (lit "medium"));
     complexity := Some (or_else (complexity task) (lit "medium"));
     dependsOn := Some (default [] (dependsOn task));
     requirements := requirements task;
     acceptanceCriteria := acceptanceCriteria task;
     status := Some (lit "pending") |}.

(** [state.lastToolUseId || fallback] *)
Definition tool_use_id_or (st : ConversationState) (fallback : jsstring) : jsstring :=
  or_else (lastToolUseId st) fallback.

Definition corrective_instruction : Message :=
  {| role := user;
     content := c_text (lit "Please use ask_clarifying_questions if you need more information, propose_playbook to suggest a workflow template, or output_plan to provide the structured plan.") |}.

Section ConversationEngine.

(** [JSON.stringify(input, null, 2)] is a built-in; taken as given. *)
Variable JSON_stringify : PlanInput -> jsstring.

Definition assemblePlan (st : ConversationState) (input : PlanInput) : Plan :=
  {| raw := JSON_stringify input;
     repo := or_else (in_repo input) [];
     flow := default default_flow (in_flow input);
     plan_title := in_title input;
     playbook := default fallback_playbook (acceptedPlaybook st);
     tasks := map defaultTask (in_tasks input) |}.

(** The [for (const block of response.content)] loop.  [suspended] is the
    early [return null] of the two pausing tools. *)
Inductive Scan :=
| suspended (st : ConversationState) (evs : list SessionEvent)
| scanned (p : option Plan) (evs : list SessionEvent).

Fixpoint scanBlocks (whole : list Block) (blocks : list Block)
    (st : ConversationState) (p : option Plan) (evs : list SessionEvent) : Scan :=
  match blocks with
  | [] => scanned p evs
  | text_block t :: rest => scanBlocks whole rest st p (evs ++ [ev_output t])
  | ask_clarifying_questions tid qs :: _ =>
      let st1 := with_pendingQuestions st (Some qs) in
      let st2 := with_lastToolUseId st1 (Some tid) in
      let st3 := push st2 {| role := assistant; content := c_blocks whole |} in
      suspended st3 (evs ++ [ev_questions qs])
  | propose_playbook tid pb :: _ =>
      let st1 := with_pendingPlaybook st (Some pb) in
      let st2 := with_lastToolUseId st1 (Some tid) in
      let st3 := push st2 {| role := assistant; content := c_blocks whole |} in
      suspended st3 (evs ++ [ev_playbook_proposed pb])
  | output_plan _ input :: rest =>
      let pl := assemblePlan st input in
      scanBlocks whole rest st (Some pl) (evs ++ [ev_plan_ready pl])
  | other_tool_use _ _ :: rest => scanBlocks whole rest st p evs
  | other_block :: rest => scanBlocks whole rest st p evs
  end.

Definition is_end_turn (r : StopReason) : bool :=
  match r with end_turn => true | _ => false end.

(** [runConversationLoop]; the recursion of the text-only retry consumes the
    next reply of the script. *)
Fixpoint runConversationLoop (script : list AgentReply) (workflowId : jsstring)
    (store : Store) (evs : list SessionEvent) : Run (option Plan) :=
  match store !! workflowId with
  | None =>
      {| outcome := Thrown (Error (lit "No conversation state"));
         store_after := store; emitted := evs; script_after := script |}
  | Some st =>
      match script with
      | [] => {| outcome := Awaiting; store_after := store; emitted := evs;
                 script_after := [] |}
      | reply_error msg :: rest =>
          {| outcome := Thrown (Error msg); store_after := store;
             emitted := evs ++ [ev_error (lit "Planning failed: " ++ msg)];
             script_after := rest |}
      | reply_ok response :: rest =>
          match scanBlocks (resp_content response) (resp_content response) st None evs with
          | suspended st' evs' =>
              {| outcome := Returned None;
                 store_after := <[workflowId := st']> store;
                 emitted := evs'; script_after := rest |}
          | scanned p evs' =>
              if is_end_turn (stop_reason response) && negb (is_some p)
              then
                let st1 := push st {| role := assistant;
                                      content := c_blocks (resp_content response) |} in
                let st2 := push st1 corrective_instruction in
                runConversationLoop rest workflowId (<[workflowId := st2]> store) evs'
              else
                {| outcome := Returned p; store_after := store;
                   emitted := evs'; script_after := rest |}
          end
      end
  end.

Definition runToolBasedPlanningSession (script : list AgentReply)
    (workflowId requirement_ workDir_ : jsstring) (store : Store) : Run (option Plan) :=
  let st := {| messages :=
                 [ {| role := user;
                      content := c_text (lit "Working directory: " ++ workDir_ ++ nl ++ nl
                                         ++ lit "Requirement: " ++ requirement_) |} ];
               pendingQuestions := None; pendingPlaybook := None;
               acceptedPlaybook := None; lastToolUseId := None |} in
  runConversationLoop script workflowId (<[workflowId := st]> store)
    [ev_thinking (lit "Starting planning session...")].

(** [answers[q.id]], [q.options.find], and the template literal.  [answers]
    is a record of own string properties; a missing key reads [undefined]
    (properties inherited from [Object.prototype] are left out). *)
Definition formatAnswer (answers : gmap (list N) (list N)) (q : ClarifyingQuestion)
  : jsstring :=
  let answer := answers !! q_id q in
  let option_ :=
    match answer with
    | Some a => find (fun o => bool_decide (opt_value o = a)) (options q)
    | None => None
    end in
  let shown :=
    match option_ with
    | Some o => if truthy (opt_label o) then opt_label o
                else default (lit "undefined") answer
    | None => default (lit "undefined") answer
    end in
  question q ++ lit ": " ++ shown.

Definition continueWithAnswers (script : list AgentReply) (workflowId : jsstring)
    (answers : gmap (list N) (list N)) (store : Store) : Run (option Plan) :=
  match store !! workflowId with
  | Some st =>
      match pendingQuestions st with
      | Some qs =>
          let formattedAnswers := join nl (map (formatAnswer answers) qs) in
          let toolUseId := tool_use_id_or st (lit "questions_answered") in
          let st1 := push st
            {| role := user;
               content := c_tool_result toolUseId
                 (lit "User's answers:" ++ nl ++ formattedAnswers ++ nl ++ nl
                  ++ lit "Please proceed with creating the plan based on these choices.") |} in
          let st2 := with_pendingQuestions st1 None in
          runConversationLoop script workflowId (<[workflowId := st2]> store)
            [ev_thinking (lit "Processing your answers...")]
      | None =>
          {| outcome := Thrown (Error (lit "No pending questions to answer"));
             store_after := store; emitted := []; script_after := script |}
      end
  | None =>
      {| outcome := Thrown (Error (lit "No pending questions to answer"));
         store_after := store; emitted := []; script_after := script |}
  end.

Definition acceptPlaybook (script : list AgentReply) (workflowId : jsstring)
    (store : Store) : Run (option Plan) :=
  match store !! workflowId with
  | Some st =>
      match pendingPlaybook st with
      | Some pb =>
          let st1 := with_acceptedPlaybook st (Some pb) in
          let st2 := push st1
            {| role := user;
               content := c_tool_result (tool_use_id_or st (lit "playbook_accepted"))
                 (lit "User has accepted the " ++ quote ++ pb_name pb ++ quote
                  ++ lit " playbook. Now create the detailed implementation plan using the output_plan tool.") |} in
          let st3 := with_pendingPlaybook st2 None in
          runConversationLoop script workflowId (<[workflowId := st3]> store)
            [ev_thinking (lit "Generating detailed plan...")]
      | None =>
          {| outcome := Thrown (Error (lit "No pending playbook to accept"));
             store_after := store; emitted := []; script_after := script |}
      end
  | None =>
      {| outcome := Thrown (Error (lit "No pending playbook to accept"));
         store_after := store; emitted := []; script_after := script |}
  end.

Definition rejectPlaybook (script : list AgentReply) (workflowId feedback : jsstring)
    (store : Store) : Run (option Plan) :=
  match store !! workflowId with
  | Some st =>
      match pendingPlaybook st with
      | Some _ =>
          let st1 := push st
            {| role := user;
               content := c_tool_result (tool_use_id_or st (lit "playbook_rejected"))
                 (lit "User rejected the playbook. Feedback: " ++ feedback ++ nl ++ nl
                  ++ lit "Please propose a different playbook or ask clarifying questions.") |} in
          let st2 := with_pendingPlaybook st1 None in
          runConversationLoop script workflowId (<[workflowId := st2]> store)
            [ev_thinking (lit "Reconsidering playbook...")]
      | None =>
          {| outcome := Thrown (Error (lit "No pending playbook to reject"));
             store_after := store; emitted := []; script_after := script |}
      end
  | None =>
      {| outcome := Thrown (Error (lit "No pending playbook to reject"));
         store_after := store; emitted := []; script_after := script |}
  end.

Definition refineToolBasedPlan (script : list AgentReply) (workflowId feedback : jsstring)
    (store : Store) : Run (option Plan) :=
  match store !! workflowId with
  | Some st =>
      let st1 := push st
        {| role := user;
           content := c_text (lit "Please refine the plan based on this feedback:"
                              ++ nl ++ nl ++ feedback) |} in
      runConversationLoop script workflowId (<[workflowId := st1]> store)
        [ev_thinking (lit "Refining plan...")]
  | None =>
      {| outcome := Thrown (Error (lit "No conversation state found"));
         store_after := store; emitted := []; script_after := script |}
  end.

End ConversationEngine.

Definition clearConversationState (workflowId : jsstring) (store : Store) : Store :=
  delete workflowId store.

(** The value of [conversationStates.get(id)?.field]: the optional chain
    yields [undefined] when the map has no entry, and the stored field
    ([null] or a value) otherwise. *)
Inductive Chained (A : Type) := js_undefined | js_null | js_value (a : A).
Arguments js_undefined {A}.
Arguments js_null {A}.
Arguments js_value {A} a.

Definition chain {A : Type} (store : Store) (workflowId : jsstring)
    (field : ConversationState -> option A) : Chained A :=
  match store !! workflowId with
  | None => js_undefined
  | Some st => match field st with None => js_null | Some a => js_value a end
  end.

(** [v !== null] *)
Definition not_null {A : Type} (v : Chained A) : bool :=
  match v with js_null => false | _ => true end.

(** [v || null] for an array or object value, both always truthy. *)
Definition or_null {A : Type} (v : Chained A) : option A :=
  match v with js_value a => Some a | _ => None end.

Definition hasPendingQuestions (store : Store) (workflowId : jsstring) : bool :=
  not_null (chain store workflowId pendingQuestions).

Definition getPendingQuestions (store : Store) (workflowId : jsstring)
  : option (list ClarifyingQuestion) :=
  or_null (chain store workflowId pendingQuestions).

Definition hasPendingPlaybook (store : Store) (workflowId : jsstring) : bool :=
  not_null (chain store workflowId pendingPlaybook).

Definition getPendingPlaybook (store : Store) (workflowId : jsstring)
  : option Playbook :=
  or_null (chain store workflowId pendingPlaybook).

(** ** sessions/reviewer.ts: the scorer *)

Local Open Scope N_scope.

(** [\s]: WhiteSpace and LineTerminator code units. *)
Definition is_space (c : N) : bool :=
  ((9 <=? c) && (c <=? 13)) || (c =? 32) || (c =? 160) || (c =? 5760)
  || ((8192 <=? c) && (c <=? 8202)) || (c =? 8232) || (c =? 8233)
  || (c =? 8239) || (c =? 8287) || (c =? 12288) || (c =? 65279).

(** [\d] *)
Definition is_digit (c : N) : bool := (48 <=? c) && (c <=? 57).

(** Case folding of the [/i] flag, as far as it concerns matching against
    ASCII pattern characters: a code unit of 128 or more never folds to an
    ASCII one, so it is left as it is. *)
Definition canonicalize (c : N) : N :=
  if (97 <=? c) && (c <=? 122) then c - 32 else c.

(** Match a literal at the head of [s] modulo case; the rest on success. *)
Fixpoint match_ci (pat s : jsstring) : option jsstring :=
  match pat with
  | [] => Some s
  | p :: pat' =>
      match s with
      | c :: s' => if canonicalize c =? canonicalize p then match_ci pat' s' else None
      | [] => None
      end
  end.

(** Match a literal at the head of [s] exactly. *)
Fixpoint match_exact (pat s : jsstring) : option jsstring :=
  match pat with
  | [] => Some s
  | p :: pat' =>
      match s with
      | c :: s' => if c =? p then match_exact pat' s' else None
      | [] => None
      end
  end.

(** Greedy run of a character class: the run and the rest. *)
Fixpoint span (p : N -> bool) (s : jsstring) : jsstring * jsstring :=
  match s with
  | c :: t => if p c then let '(run, rest) := span p t in (c :: run, rest)
              else ([], s)
  | [] => ([], [])
  end.

(** Leftmost match of an anchored matcher, trying every start position. *)
Fixpoint search {A : Type} (m : jsstring -> option A) (s : jsstring) : option A :=
  match m s with
  | Some a => Some a
  | None => match s with [] => None | _ :: t => search m t end
  end.

(** [parseInt(digits, 10)] on a non-empty run of decimal digits.  The value
    is kept exact; a double agrees with it below 2^53. *)
Definition parseInt10 (ds : jsstring) : N :=
  fold_left (fun acc d => 10 * acc + (d - 48)) ds 0.

Definition confidence_marker : jsstring := lit "**Confidence Score:**".
Definition recommendation_marker : jsstring := lit "**Recommendation:**".

(** [/\*\*Confidence Score:\*\*\s*(\d+)/i] anchored at the head: group 1. *)
Definition confidence_here (s : jsstring) : option jsstring :=
  match match_ci confidence_marker s with
  | Some r =>
      let '(ds, _) := span is_digit (snd (span is_space r)) in
      if truthy ds then Some ds else None
  | None => None
  end.

Definition keywords : list jsstring :=
  [lit "APPROVE"; lit "REQUEST_CHANGES"; lit "ITERATE"; lit "ESCALATE"].

(** The alternation: the text matched by the first alternative that fits. *)
Fixpoint first_alternative (alts : list jsstring) (s : jsstring) : option jsstring :=
  match alts with
  | [] => None
  | a :: rest =>
      match match_ci a s with
      | Some _ => Some (take (length a) s)
      | None => first_alternative rest s
      end
  end.

(** [/\*\*Recommendation:\*\*\s*(APPROVE|REQUEST_CHANGES|ITERATE|ESCALATE)/i]
    anchored at the head: group 1. *)
Definition recommendation_here (s : jsstring) : option jsstring :=
  match match_ci recommendation_marker s with
  | Some r => first_alternative keywords (snd (span is_space r))
  | None => None
  end.

(** [toUpperCase] on text known to be ASCII. *)
Definition toUpperCase_ascii (s : jsstring) : jsstring := map canonicalize s.

Definition getConfidenceLevel (c : N) : ConfidenceLevel :=
  if 90 <=? c then high else if 70 <=? c then medium else low.

(** [/\d+\.\s+\*\*([^*]+)\*\*:\s*([^\n]+)/g] *)
Definition not_star (c : N) : bool := negb (c =? 42).
Definition not_newline (c : N) : bool := negb (c =? 10).

(** [([^\n]+)] at the head: group and rest. *)
Definition line_here (s : jsstring) : option (jsstring * jsstring) :=
  let '(g, rest) := span not_newline s in
  if truthy g then Some (g, rest) else None.

(** [\s*([^\n]+)] with the greedy star giving characters back. *)
Fixpoint spaces_then_line (s : jsstring) : option (jsstring * jsstring) :=
  match s with
  | c :: t =>
      if is_space c
      then match spaces_then_line t with
           | Some r => Some r
           | None => line_here s
           end
      else line_here s
  | [] => None
  end.

(** One issue anchored at the head: the pushed text and the rest after the
    match. *)
Definition issue_here (s : jsstring) : option (jsstring * jsstring) :=
  let '(ds, r1) := span is_digit s in
  if truthy ds then
    match match_exact (lit ".") r1 with
    | Some r2 =>
        let '(ws, r3) := span is_space r2 in
        if truthy ws then
          match match_exact (lit "**") r3 with
          | Some r4 =>
              let '(g1, r5) := span not_star r4 in
              if truthy g1 then
                match match_exact (lit "**:") r5 with
                | Some r6 =>
                    match spaces_then_line r6 with
                    | Some (g2, rest) => Some (g1 ++ lit ": " ++ g2, rest)
                    | None => None
                    end
                | None => None
                end
              else None
          | None => None
          end
        else None
    | None => None
    end
  else None.

(** [matchAll]: after a match the scan resumes where the match ended;
    [skip] counts the code units of the last match still to be passed. *)
Fixpoint issues_from (skip : nat) (s : jsstring) : list jsstring :=
  match s with
  | [] => []
  | _ :: t =>
      match skip with
      | S k => issues_from k t
      | O =>
          match issue_here s with
          | Some (text, rest) =>
              text :: issues_from (length s - length rest - 1)%nat t
          | None => issues_from 0 t
          end
      end
  end.

Definition parseIssues (response : jsstring) : list jsstring :=
  issues_from 0 response.

(** [/## Summary\n\n([\s\S]*?)(?=\n##|$)/]: the lazy group ends at the first
    position followed by a newline and two hashes, or at the end. *)
Fixpoint lazy_section (s : jsstring) : jsstring :=
  match s with
  | [] => []
  | c :: t =>
      match match_exact (nl ++ lit "##") s with
      | Some _ => []
      | None => c :: lazy_section t
      end
  end.

Definition summary_here (s : jsstring) : option jsstring :=
  match match_exact (lit "## Summary" ++ nl ++ nl) s with
  | Some r => Some (lazy_section r)
  | None => None
  end.

Definition trimStart (s : jsstring) : jsstring := snd (span is_space s).
Definition trim (s : jsstring) : jsstring := rev (trimStart (rev (trimStart s))).

(** [s.includes(sub)] *)
Fixpoint includes (s sub : jsstring) : bool :=
  match match_exact sub s with
  | Some _ => true
  | None => match s with [] => false | _ :: t => includes t sub end
  end.

Definition check_mark : jsstring := [9989].

Definition buildRecommendedAction (recommendation : jsstring)
    (issues_ : list jsstring) : ReviewAction :=
  if decide (recommendation = lit "APPROVE") then RA_approve
  else if decide (recommendation = lit "REQUEST_CHANGES") then RA_request_changes issues_
  else if decide (recommendation = lit "ITERATE")
       then RA_iterate (or_else (head issues_) (lit "Issues found in review"))
  else if decide (recommendation = lit "ESCALATE")
       then RA_escalate (or_else (head issues_) (lit "Major issues require human review"))
  else RA_iterate (lit "Review inconclusive").

Section Scorer.

(** [String.prototype.toLowerCase] is a built-in; taken as given. *)
Variable toLowerCase : jsstring -> jsstring.

Definition parseCriteriaResults (response : jsstring) (p : Plan) : list CriteriaResult :=
  flat_map (fun task =>
    map (fun c =>
      {| taskId := id task; criterion := c;
         passed := includes response check_mark
                   && includes (toLowerCase response) (take 20 (toLowerCase c));
         evidence := [] |})
      (acceptanceCriteria task))
    (tasks p).

Definition parseReviewResult (response : jsstring) (p : Plan) : ReviewResult :=
  let confidence_ :=
    match search confidence_here response with
    | Some ds => parseInt10 ds
    | None => 50
    end in
  let recommendationStr :=
    match search recommendation_here response with
    | Some kw => toUpperCase_ascii kw
    | None => lit "ITERATE"
    end in
  let issues_ := parseIssues response in
  let summary_ :=
    match search summary_here response with
    | Some g => trim g
    | None => []
    end in
  {| planId := plan_title p;
     confidence := confidence_;
     confidenceLevel := getConfidenceLevel confidence_;
     criteriaResults := parseCriteriaResults response p;
     issues := issues_;
     summary := summary_;
     recommendedAction := buildRecommendedAction recommendationStr issues_ |}.

End Scorer.

Local Close Scope N_scope.

(** ** sessions/reviewer.ts: the review session *)

(** The text blocks streamed by the review agent, and whether the stream
    ends by throwing. *)
Record ReviewStream := { texts : list jsstring; failure : option jsstring }.

(** ** orchestrator/index.ts: the Orchestrator class *)

Record Orchestrator := {
  config : OrchestratorConfig;
  state : WorkflowState;
  planningContext : jsstring;
}.

(** An orchestrator together with the conversation map it shares. *)
Record World := { orch : Orchestrator; convs : Store }.

Record PartialConfig := {
  p_workDir : option jsstring;
  p_maxIterations : option Z;
  p_confidenceThresholds : option Thresholds;
  p_autoApproveHighConfidence : option bool;
}.

Definition DEFAULT_CONFIG (cwd : jsstring) : OrchestratorConfig :=
  {| workDir := cwd; maxIterations := 3;
     confidenceThresholds := {| th_high := 90; th_medium := 70 |};
     autoApproveHighConfidence := false |}.

Definition merge_config (d : OrchestratorConfig) (p : PartialConfig) : OrchestratorConfig :=
  {| workDir := default (workDir d) (p_workDir p);
     maxIterations := default (maxIterations d) (p_maxIterations p);
     confidenceThresholds := default (confidenceThresholds d) (p_confidenceThresholds p);
     autoApproveHighConfidence :=
       default (autoApproveHighConfidence d) (p_autoApproveHighConfidence p) |}.

Definition createOrchestrator (cwd : jsstring) (now : Z) (uuid : jsstring)
    (p : PartialConfig) : Orchestrator :=
  {| config := merge_config (DEFAULT_CONFIG cwd) p;
     state := createWorkflow now uuid;
     planningContext := [] |}.

Definition with_state (o : Orchestrator) (s : WorkflowState) : Orchestrator :=
  {| config := config o; state := s; planningContext := planningContext o |}.

Definition with_planningContext (o : Orchestrator) (c : jsstring) : Orchestrator :=
  {| config := config o; state := state o; planningContext := c |}.

Record OpResult (A : Type) := {
  op_outcome : Outcome A;
  op_world : World;
  op_emitted : list SessionEvent;
}.
Arguments op_outcome {A} o.
Arguments op_world {A} o.
Arguments op_emitted {A} o.

Definition buildIterationPrompt (review : ReviewResult) (additionalFeedback : jsstring)
  : jsstring :=
  let p0 := lit "The previous implementation was reviewed with "
            ++ show_N (confidence review) ++ lit "% confidence." ++ nl ++ nl in
  let p1 :=
    match issues review with
    | [] => p0
    | _ :: _ =>
        p0 ++ lit "Issues found:" ++ nl
        ++ concat (map (fun i => lit "- " ++ i ++ nl) (issues review)) ++ nl
    end in
  let p2 := if truthy (summary review)
            then p1 ++ lit "Review summary: " ++ summary review ++ nl ++ nl else p1 in
  let p3 := if truthy additionalFeedback
            then p2 ++ lit "Additional feedback: " ++ additionalFeedback ++ nl ++ nl
            else p2 in
  p3 ++ lit "Please revise the plan to address these issues.".

Section OrchestratorOps.

Variable JSON_stringify : PlanInput -> jsstring.
Variable toLowerCase : jsstring -> jsstring.

Definition runReviewSession (rs : ReviewStream) (p : Plan)
  : Outcome ReviewResult * list SessionEvent :=
  let evs := ev_thinking (lit "Starting review session...") :: map ev_output (texts rs) in
  match failure rs with
  | Some msg => (Thrown (Error msg), evs)
  | None =>
      let result := parseReviewResult toLowerCase (concat (texts rs)) p in
      (Returned result, evs ++ [ev_review_ready result])
  end.

(** The tail shared by the planning methods: [if (plan) this.state =
    completePlanning(this.state, plan); return plan]. *)
Definition settle (now : Z) (o : Orchestrator) (r : Run (option Plan))
  : OpResult (option Plan) :=
  let o' := match outcome r with
            | Returned (Some p) => with_state o (completePlanning now (state o) p)
            | _ => o
            end in
  {| op_outcome := outcome r;
     op_world := {| orch := o'; convs := store_after r |};
     op_emitted := emitted r |}.

Definition Orchestrator_plan (now1 now2 : Z) (script : list AgentReply)
    (requirement_ : jsstring) (w : World) : OpResult (option Plan) :=
  let o := orch w in
  let o1 := with_planningContext
              (with_state o (startPlanning now1 (state o) requirement_)) requirement_ in
  settle now2 o1
    (runToolBasedPlanningSession JSON_stringify script (wf_id (state o1))
       requirement_ (workDir (config o1)) (convs w)).

Definition Orchestrator_answerQuestions (now : Z) (script : list AgentReply)
    (answers : gmap (list N) (list N)) (w : World) : OpResult (option Plan) :=
  settle now (orch w)
    (continueWithAnswers JSON_stringify script (wf_id (state (orch w))) answers (convs w)).

Definition Orchestrator_acceptPlaybook (now : Z) (script : list AgentReply)
    (w : World) : OpResult (option Plan) :=
  settle now (orch w)
    (acceptPlaybook JSON_stringify script (wf_id (state (orch w))) (convs w)).

Definition Orchestrator_rejectPlaybook (now : Z) (script : list AgentReply)
    (feedback : jsstring) (w : World) : OpResult (option Plan) :=
  settle now (orch w)
    (rejectPlaybook JSON_stringify script (wf_id (state (orch w))) feedback (convs w)).

Definition thrown {A : Type} (w : World) (msg : jsstring) : OpResult A :=
  {| op_outcome := Thrown (Error msg); op_world := w; op_emitted := [] |}.

Definition is_returned {A : Type} (o : Outcome A) : bool :=
  match o with Returned _ => true | _ => false end.

Definition Orchestrator_refinePlan (now : Z) (script : list AgentReply)
    (feedback : jsstring) (w : World) : OpResult (option Plan) :=
  let o := orch w in
  match plan (state o) with
  | None => thrown w (lit "No plan to refine. Call plan() first.")
  | Some _ =>
      let r := refineToolBasedPlan JSON_stringify script (wf_id (state o)) feedback (convs w) in
      let o1 := if is_returned (outcome r)
                then with_planningContext o
                       (planningContext o ++ nl ++ nl ++ lit "Feedback: " ++ feedback)
                else o in
      settle now o1 r
  end.

Definition Orchestrator_review (now1 now2 : Z) (rs : ReviewStream)
    (impl : Implementation) (w : World) : OpResult ReviewResult :=
  let o := orch w in
  match plan (state o) with
  | None => thrown w (lit "No plan to review against. Call plan() first.")
  | Some p =>
      let o1 := with_state o (startReview now1 (state o) impl) in
      let '(out, evs) := runReviewSession rs p in
      let o2 := match out with
                | Returned result => with_state o1 (completeReview now2 (state o1) result)
                | _ => o1
                end in
      {| op_outcome := out; op_world := {| orch := o2; convs := convs w |};
         op_emitted := evs |}
  end.

Definition Orchestrator_iterate (now1 now2 : Z) (script : list AgentReply)
    (reviewFeedback : jsstring) (w : World) : OpResult (option Plan) :=
  let o := orch w in
  if maxIterations (config o) <=? iterations (state o)
  then thrown w (lit "Max iterations (" ++ show_Z (maxIterations (config o))
                 ++ lit ") reached")
  else
    let o1 := with_state o (startIteration now1 (state o)) in
    match last (reviews (state o1)) with
    | None =>
        {| op_outcome :=
             Thrown (TypeError (lit "Cannot read properties of undefined (reading 'confidence')"));
           op_world := {| orch := o1; convs := convs w |}; op_emitted := [] |}
    | Some lastReview =>
        let iterationPrompt := buildIterationPrompt lastReview reviewFeedback in
        let r := refineToolBasedPlan JSON_stringify script (wf_id (state o1))
                   iterationPrompt (convs w) in
        let o2 := if is_returned (outcome r)
                  then with_planningContext o1
                         (planningContext o1 ++ nl ++ nl ++ lit "Iteration "
                          ++ show_Z (iterations (state o1)) ++ lit ": " ++ iterationPrompt)
                  else o1 in
        settle now2 o2 r
    end.

Definition Orchestrator_complete (now : Z) (w : World) : World :=
  {| orch := with_state (orch w) (completeWorkflow now (state (orch w)));
     convs := convs w |}.

Definition Orchestrator_reset (now : Z) (uuid : jsstring) (w : World) : World :=
  {| orch := with_planningContext
               (with_state (orch w) (createWorkflow now uuid)) [];
     convs := clearConversationState (wf_id (state (orch w))) (convs w) |}.

(** The public operations with their inputs: clock readings, the replies of
    the agent during the call, and the caller's arguments. *)
Inductive Op :=
| op_plan (now1 now2 : Z) (script : list AgentReply) (requirement_ : jsstring)
| op_answerQuestions (now : Z) (script : list AgentReply) (answers : gmap (list N) (list N))
| op_acceptPlaybook (now : Z) (script : list AgentReply)
| op_rejectPlaybook (now : Z) (script : list AgentReply) (feedback : jsstring)
| op_refinePlan (now : Z) (script : list AgentReply) (feedback : jsstring)
| op_review (now1 now2 : Z) (rs : ReviewStream) (impl : Implementation)
| op_iterate (now1 now2 : Z) (script : list AgentReply) (reviewFeedback : jsstring)
| op_complete (now : Z)
| op_reset (now : Z) (uuid : jsstring).

Definition step (w : World) (op : Op) : World :=
  match op with
  | op_plan n1 n2 sc r => op_world (Orchestrator_plan n1 n2 sc r w)
  | op_answerQuestions n sc a => op_world (Orchestrator_answerQuestions n sc a w)
  | op_acceptPlaybook n sc => op_world (Orchestrator_acceptPlaybook n sc w)
  | op_rejectPlaybook n sc f => op_world (Orchestrator_rejectPlaybook n sc f w)
  | op_refinePlan n sc f => op_world (Orchestrator_refinePlan n sc f w)
  | op_review n1 n2 rs i => op_world (Orchestrator_review n1 n2 rs i w)
  | op_iterate n1 n2 sc f => op_world (Orchestrator_iterate n1 n2 sc f w)
  | op_complete n => Orchestrator_complete n w
  | op_reset n u => Orchestrator_reset n u w
  end.

(** Worlds reachable from a freshly constructed orchestrator. *)
Inductive reachable : World -> Prop :=
| reach_new cwd now uuid p store :
    reachable {| orch := createOrchestrator cwd now uuid p; convs := store |}
| reach_step w op : reachable w -> reachable (step w op).

End OrchestratorOps.

(** * Specification vocabulary and sample data *)

(** The routing table in tabular form: the tier decides first, and the
    recommendation is consulted only in the low tier while iterations
    remain. *)
Definition decision_table (tier : ConfidenceLevel) (autoApprove : bool)
    (iterations_ max_ : Z) (recommends_escalate : bool) : RouteAction :=
  match tier with
  | high => if autoApprove then act_approve else act_human_review
  | medium => act_human_review
  | low => if (iterations_ <? max_) && negb recommends_escalate
           then act_iterate else act_escalate
  end.

Definition sample_config (auto : bool) : OrchestratorConfig :=
  {| workDir := lit "/repo"; maxIterations := 3;
     confidenceThresholds := {| th_high := 90; th_medium := 70 |};
     autoApproveHighConfidence := auto |}.

Definition sample_result (c : N) (a : ReviewAction) : ReviewResult :=
  {| planId := lit "plan"; confidence := c;
     confidenceLevel := getConfidenceLevel c;
     criteriaResults := []; issues := []; summary := [];
     recommendedAction := a |}.


(** The assembled plan read back as a tool input. *)
Definition as_input (p : Plan) : PlanInput :=
  {| in_title := plan_title p; in_repo := Some (repo p);
     in_flow := Some (flow p); in_tasks := tasks p |}.

Definition sample_task : Task :=
  {| id := 1; title := lit "Add a logout control";
     description := lit "Button in the header";
     humanRole := None; humanActionType := None; humanActionDetail := None;
     risk := None; complexity := None; dependsOn := None;
     requirements := [lit "ends the session"];
     acceptanceCriteria := [lit "session cookie is cleared"];
     status := None |}.

Definition sample_input : PlanInput :=
  {| in_title := lit "Logout"; in_repo := None; in_flow := None;
     in_tasks := [sample_task] |}.

Definition sample_question : ClarifyingQuestion :=
  {| q_id := lit "q1"; question := lit "Where should the control go?";
     options := [ {| opt_value := lit "header"; opt_label := lit "Header";
                     opt_description := None |};
                  {| opt_value := lit "menu"; opt_label := lit "User menu";
                     opt_description := None |} ];
     allowMultiple := None |}.

Definition sample_wid : jsstring := lit "wf-1".

Definition first_turn : Message :=
  {| role := user; content := c_text (lit "Requirement: add a logout control") |}.

(** A conversation that has just started. *)
Definition fresh_conversation : ConversationState :=
  {| messages := [first_turn]; pendingQuestions := None; pendingPlaybook := None;
     acceptedPlaybook := None; lastToolUseId := None |}.

(** A conversation paused on a question. *)
Definition asking_conversation : ConversationState :=
  {| messages := [first_turn;
                  {| role := assistant;
                     content := c_blocks [ask_clarifying_questions (lit "toolu_1")
                                            [sample_question]] |}];
     pendingQuestions := Some [sample_question]; pendingPlaybook := None;
     acceptedPlaybook := None; lastToolUseId := Some (lit "toolu_1") |}.

Definition plan_reply : AgentReply :=
  reply_ok {| resp_content := [output_plan (lit "toolu_9") sample_input];
              stop_reason := tool_use |}.

Definition chatter : Response :=
  {| resp_content := [text_block (lit "Let me think about it.")];
     stop_reason := end_turn |}.

Definition no_stringify : PlanInput -> jsstring := fun _ => [].

Definition no_pending_questions (store : Store) (wid : jsstring) : Prop :=
  match store !! wid with
  | Some st => pendingQuestions st = None
  | None => True
  end.


Definition is_text (b : Block) : bool :=
  match b with text_block _ => true | _ => false end.

(** A response of free text only that ends the turn. *)
Definition text_only (r : Response) : bool :=
  forallb is_text (resp_content r) && is_end_turn (stop_reason r).

Definition block_outputs (blocks : list Block) : list SessionEvent :=
  flat_map (fun b => match b with text_block t => [ev_output t] | _ => [] end) blocks.

(** The two turns each retry appends, and the events it emits. *)
Definition retry_turns (rs : list Response) : list Message :=
  flat_map (fun r => [ {| role := assistant; content := c_blocks (resp_content r) |};
                       corrective_instruction ]) rs.

Definition retry_outputs (rs : list Response) : list SessionEvent :=
  flat_map (fun r => block_outputs (resp_content r)) rs.

Definition is_corrective (m : Message) : bool :=
  match role m, content m with
  | user, c_text s =>
      match content corrective_instruction with
      | c_text s' => bool_decide (s = s')
      | _ => false
      end
  | _, _ => false
  end.

Fixpoint count_corrective (ms : list Message) : nat :=
  match ms with
  | [] => 0
  | m :: rest => (if is_corrective m then 1 else 0) + count_corrective rest
  end.

(** The corrective instructions the transcript of [wid] holds after a run. *)
Definition retries_after (r : Run (option Plan)) (wid : jsstring) : nat :=
  match store_after r !! wid with
  | Some st => count_corrective (messages st)
  | None => 0
  end.

(** The claimed bound: no run adds more than [ceiling] corrective
    instructions to a transcript. *)
Definition retry_ceiling (ceiling : nat) : Prop :=
  forall (JSON_stringify : PlanInput -> jsstring) (script : list AgentReply)
         (wid : jsstring) (store : Store) (st : ConversationState),
    store !! wid = Some st ->
    (retries_after (runConversationLoop JSON_stringify script wid store []) wid
     <= count_corrective (messages st) + ceiling)%nat.

Definition no_overrides : PartialConfig :=
  {| p_workDir := None; p_maxIterations := None;
     p_confidenceThresholds := None; p_autoApproveHighConfidence := None |}.

(** [toLowerCase] restricted to ASCII text, for the samples. *)
Definition ascii_toLowerCase (s : jsstring) : jsstring :=
  map (fun c => if (65 <=? c)%N && (c <=? 90)%N then (c + 32)%N else c) s.

Definition new_world : World :=
  {| orch := createOrchestrator (lit "/repo") 0 sample_wid no_overrides; convs := ∅ |}.

Definition sample_implementation : Implementation :=
  {| impl_type := impl_branch; identifier := lit "feature/logout";
     diff := None; files := None |}.

Definition failing_review : ReviewStream :=
  {| texts := []; failure := Some (lit "timeout") |}.

Definition reviewing_with_plan (w : World) : Prop :=
  phase (state (orch w)) = reviewing -> plan (state (orch w)) <> None.

(** A workflow that planned, then had its review session fail. *)
Definition unreviewed_world : World :=
  step no_stringify ascii_toLowerCase
    (step no_stringify ascii_toLowerCase new_world
       (op_plan 1 2 [plan_reply] (lit "add a logout control")))
    (op_review 3 4 failing_review sample_implementation).

(** [m] spells the literal [pat] up to the case of ASCII letters. *)
Definition spells (pat m : jsstring) : Prop :=
  map canonicalize m = map canonicalize pat.

Definition all_spaces (ws : jsstring) : Prop := forallb is_space ws = true.




Definition sample_plan : Plan :=
  assemblePlan no_stringify fresh_conversation sample_input.

(** A workflow under review after [iters] iterations. *)
Definition sample_state (iters : Z) : WorkflowState :=
  {| wf_id := sample_wid; phase := reviewing;
     requirement := Some (lit "add a logout control");
     plan := Some sample_plan; implementation := Some sample_implementation;
     reviews := []; iterations := iters; createdAt := 0; updatedAt := 0 |}.

(** A narrative in the format the reviewer prompt asks for. *)
Definition structured_narrative : jsstring :=
  lit "## Review Summary" ++ nl ++ nl
  ++ lit "**Confidence Score:** 85" ++ nl
  ++ lit "**recommendation:**  request_changes" ++ nl ++ nl
  ++ lit "## Issues Found" ++ nl ++ nl
  ++ lit "1. **Naming**: rename the handler" ++ nl
  ++ lit "2. **Tests**: cover the expired session" ++ nl ++ nl
  ++ lit "## Summary" ++ nl ++ nl
  ++ lit "Close, two small fixes.  " ++ nl.

(** ** Vocabulary of the further properties *)

(** The two tool calls that pause the cycle. *)
Definition is_pausing (b : Block) : bool :=
  match b with
  | ask_clarifying_questions _ _ | propose_playbook _ _ => true
  | _ => false
  end.

Definition is_output_plan (b : Block) : bool :=
  match b with output_plan _ _ => true | _ => false end.

(** The input of the last [output_plan] block. *)
Fixpoint last_plan_input (blocks : list Block) : option PlanInput :=
  match blocks with
  | [] => None
  | output_plan _ input :: rest =>
      match last_plan_input rest with
      | Some later => Some later
      | None => Some input
      end
  | _ :: rest => last_plan_input rest
  end.

(** The transcript of [st'] continues that of [st]. *)
Definition extends (st st' : ConversationState) : Prop :=
  exists extra, messages st' = messages st ++ extra.

Definition slots_kept (st st' : ConversationState) : Prop :=
  pendingQuestions st' = pendingQuestions st
  /\ pendingPlaybook st' = pendingPlaybook st
  /\ lastToolUseId st' = lastToolUseId st.

(** One slot was filled by a pausing call, the other one left alone. *)
Definition newly_paused (st st' : ConversationState) : Prop :=
  is_some (lastToolUseId st') = true
  /\ ((is_some (pendingQuestions st') = true
       /\ pendingPlaybook st' = pendingPlaybook st)
      \/ (is_some (pendingPlaybook st') = true
          /\ pendingQuestions st' = pendingQuestions st)).

Definition no_pending (st : ConversationState) : Prop :=
  pendingQuestions st = None /\ pendingPlaybook st = None.

Definition at_most_one_pending (st : ConversationState) : Prop :=
  pendingQuestions st = None \/ pendingPlaybook st = None.

(** Every conversation of the map has at most one pending slot set. *)
Definition exclusive (store : Store) : Prop :=
  forall (wid : jsstring) (st : ConversationState),
    store !! wid = Some st -> at_most_one_pending st.

(** Starting a session, the three resume operations, and discarding. *)
Inductive ConvOp :=
| conv_start (script : list AgentReply) (wid req dir : jsstring)
| conv_answer (script : list AgentReply) (wid : jsstring)
    (answers : gmap (list N) (list N))
| conv_accept (script : list AgentReply) (wid : jsstring)
| conv_reject (script : list AgentReply) (wid feedback : jsstring)
| conv_clear (wid : jsstring).

Definition conv_run (JSON_stringify : PlanInput -> jsstring) (store : Store)
    (op : ConvOp) : Run (option Plan) :=
  match op with
  | conv_start script wid req dir =>
      runToolBasedPlanningSession JSON_stringify script wid req dir store
  | conv_answer script wid answers =>
      continueWithAnswers JSON_stringify script wid answers store
  | conv_accept script wid => acceptPlaybook JSON_stringify script wid store
  | conv_reject script wid feedback =>
      rejectPlaybook JSON_stringify script wid feedback store
  | conv_clear wid =>
      {| outcome := Returned None; store_after := clearConversationState wid store;
         emitted := []; script_after := [] |}
  end.

Definition conv_wid (op : ConvOp) : jsstring :=
  match op with
  | conv_start _ wid _ _ | conv_answer _ wid _ | conv_accept _ wid
  | conv_reject _ wid _ | conv_clear wid => wid
  end.

Definition paused_conversation : ConversationState :=
  {| messages := [first_turn]; pendingQuestions := None;
     pendingPlaybook := Some fallback_playbook;
     acceptedPlaybook := None; lastToolUseId := Some (lit "toolu_2") |}.

Definition is_resume (op : ConvOp) : bool :=
  match op with
  | conv_answer _ _ _ | conv_accept _ _ | conv_reject _ _ _ => true
  | _ => false
  end.

Definition no_pending_playbook (store : Store) (wid : jsstring) : Prop :=
  match store !! wid with
  | Some st => pendingPlaybook st = None
  | None => True
  end.

Definition assistant_turn (blocks : list Block) : Message :=
  {| role := assistant; content := c_blocks blocks |}.

Definition tool_result_turn (tid body : jsstring) : Message :=
  {| role := user; content := c_tool_result tid body |}.

Definition asking_reply : AgentReply :=
  reply_ok {| resp_content := [text_block (lit "One question first.");
                               ask_clarifying_questions (lit "toolu_1") [sample_question]];
              stop_reason := tool_use |}.

Definition proposing_reply : AgentReply :=
  reply_ok {| resp_content := [propose_playbook (lit "toolu_2") fallback_playbook];
              stop_reason := tool_use |}.

(** The turn [refineToolBasedPlan] appends for a piece of feedback. *)
Definition refinement_turn (feedback : jsstring) : Message :=
  {| role := user;
     content := c_text (lit "Please refine the plan based on this feedback:"
                        ++ nl ++ nl ++ feedback) |}.

Definition sample_review : ReviewResult :=
  {| planId := lit "Logout"; confidence := 40%N; confidenceLevel := low;
     criteriaResults := [];
     issues := [lit "Tests: cover the expired session"];
     summary := lit "Not there yet."; 
     recommendedAction := RA_iterate (lit "Tests: cover the expired session") |}.

(** A workflow with a plan, one low-confidence review and a live conversation. *)
Definition reviewed_world : World :=
  {| orch :=
       {| config := DEFAULT_CONFIG (lit "/repo");
          state := {| wf_id := sample_wid; phase := reviewing;
                      requirement := Some (lit "add a logout control");
                      plan := Some sample_plan;
                      implementation := Some sample_implementation;
                      reviews := [sample_review]; iterations := 0;
                      createdAt := 0; updatedAt := 4 |};
          planningContext := lit "add a logout control" |};
     convs := {[ sample_wid := fresh_conversation ]} |}.

(** The iteration counter is within the configured budget. *)
Definition within_budget (w : World) : Prop :=
  0 <= iterations (state (orch w))
       <= Z.max 0 (maxIterations (config (orch w))).

(** The text [x] holds the line [- i] for the issue [i]. *)
Definition lists_issue (i x : jsstring) : Prop :=
  exists before after, x = before ++ lit "- " ++ i ++ nl ++ after.

(** The rest of a text does not go on with a character of the class. *)
Definition stops (p : N -> bool) (rest : jsstring) : Prop :=
  match rest with
  | c :: _ => p c = false
  | [] => True
  end.

(** No asterisk occurs in the text. *)
Definition star_free (s : jsstring) : Prop := forallb not_star s = true.

(** One item of a numbered issue list: its number, title and description. *)
Record IssueItem := { item_number : N; item_title : jsstring; item_text : jsstring }.

(** The line the reviewer prompt prescribes for an item. *)
Definition render_item (it : IssueItem) : jsstring :=
  show_N (item_number it) ++ lit ". **" ++ item_title it ++ lit "**: "
  ++ item_text it ++ nl.

(** The title is non-empty without asterisk; the description is without
    newline and starts with a character that is not white space. *)
Definition well_formed_item (it : IssueItem) : Prop :=
  item_title it <> [] /\ star_free (item_title it)
  /\ forallb not_newline (item_text it) = true
  /\ exists c t, item_text it = c :: t /\ is_space c = false.

Definition sample_item : IssueItem :=
  {| item_number := 1%N; item_title := lit "Tests";
     item_text := lit "cover the expired session" |}.

(** The issue text the parser produces for an item. *)
Definition item_issue (it : IssueItem) : jsstring :=
  item_title it ++ lit ": " ++ item_text it.

Definition other_wid : jsstring := lit "wf-2".

Definition two_conversations : Store :=
  <[ other_wid := paused_conversation ]> {[ sample_wid := asking_conversation ]}.

Definition scored_prefix : jsstring := lit "## Review Summary" ++ nl ++ nl.






(** A review stream that ends normally with a low score. *)
Definition low_review : ReviewStream :=
  {| texts := [lit "**Confidence Score:** 40"]; failure := None |}.

(** A plan, then review and iteration in turn: three iterations pass the
    guard of the default configuration, the fourth is refused. *)
Definition iteration_ops : list Op :=
  [ op_plan 1 2 [plan_reply] (lit "add a logout control");
    op_review 3 4 low_review sample_implementation;
    op_iterate 5 6 [plan_reply] [];
    op_review 7 8 low_review sample_implementation;
    op_iterate 9 10 [plan_reply] [];
    op_review 11 12 low_review sample_implementation;
    op_iterate 13 14 [plan_reply] [];
    op_review 15 16 low_review sample_implementation;
    op_iterate 17 18 [plan_reply] [] ].

Definition iterated_world : World :=
  fold_left (step no_stringify ascii_toLowerCase) iteration_ops new_world.

(** * Properties *)

(** ** Router *)

(** The three routing examples of the specification. *)
Example route_examples :
  action (route (sample_config false) (sample_state 0) (sample_result 95 RA_approve))
    = act_human_review
  /\ action (route (sample_config false) (sample_state 3)
               (sample_result 40 (RA_iterate (lit "x")))) = act_escalate
  /\ action (route (sample_config false) (sample_state 1)
               (sample_result 40 (RA_iterate (lit "x")))) = act_iterate.
Proof. repeat split; reflexivity. Qed.

(** C1, as stated, fails: a high-tier review that recommends escalation is
    routed to the human quick review, not escalated. *)
Lemma route_escalate_recommendation_high_tier :
  let result := sample_result 95 (RA_escalate (lit "fundamental problems")) in
  is_escalate (recommendedAction result) = true
  /\ confidenceLevel result = high
  /\ action (route (sample_config false) (sample_state 0) result) = act_human_review
  /\ action (route (sample_config true) (sample_state 0) result) = act_approve.
Proof. repeat split; reflexivity. Qed.

(** C1 (amended): for every configuration, workflow state and review result,
    [route] returns the action of the decision table: high tier gives approve
    when auto-approve is enabled and human quick review otherwise, medium tier
    gives human quick review, low tier gives escalate when the iterations are
    used up or the review recommends escalation and iterate otherwise; an
    escalate recommendation does not override the high and medium tiers. *)
Theorem route_decision_table (cfg : OrchestratorConfig) (st : WorkflowState)
    (result : ReviewResult) :
  action (route cfg st result)
  = decision_table (confidenceLevel result) (autoApproveHighConfidence cfg)
      (iterations st) (maxIterations cfg) (is_escalate (recommendedAction result)).
Proof.
  unfold route, decision_table.
  destruct (confidenceLevel result);
    [destruct (autoApproveHighConfidence cfg); reflexivity | reflexivity | ].
  destruct (Z.leb_spec (maxIterations cfg) (iterations st)) as [Hle | Hlt].
  - replace (iterations st <? maxIterations cfg) with false
      by (symmetry; apply Z.ltb_ge; exact Hle).
    reflexivity.
  - replace (iterations st <? maxIterations cfg) with true
      by (symmetry; apply Z.ltb_lt; exact Hlt).
    destruct (recommendedAction result); reflexivity.
Qed.

(** ** Pending-state queries *)

(** C10: for a workflow identifier without conversation state, both [has]
    queries answer true while both [get] queries answer null; this is in
    particular the situation right after the state was cleared. *)
Theorem pending_queries_without_state (store : Store) (workflowId : jsstring) :
  store !! workflowId = None ->
  hasPendingQuestions store workflowId = true
  /\ hasPendingPlaybook store workflowId = true
  /\ getPendingQuestions store workflowId = None
  /\ getPendingPlaybook store workflowId = None
  /\ (forall other : Store,
        hasPendingQuestions (clearConversationState workflowId other) workflowId = true
        /\ hasPendingPlaybook (clearConversationState workflowId other) workflowId = true
        /\ getPendingQuestions (clearConversationState workflowId other) workflowId = None
        /\ getPendingPlaybook (clearConversationState workflowId other) workflowId = None).
Proof.
  intros Hnone.
  unfold hasPendingQuestions, hasPendingPlaybook, getPendingQuestions,
    getPendingPlaybook, chain, clearConversationState.
  rewrite Hnone. repeat split; try reflexivity;
    rewrite lookup_delete_eq; reflexivity.
Qed.

Lemma pending_queries_without_state_witness :
  hasPendingQuestions (∅ : Store) (lit "wf-1") = true
  /\ getPendingQuestions (∅ : Store) (lit "wf-1") = None.
Proof.
  destruct (pending_queries_without_state ∅ (lit "wf-1") (lookup_empty _))
    as (H1 & _ & H3 & _).
  split; [exact H1 | exact H3].
Defined.

(** ** Plan assembly *)

Lemma or_else_None (d : jsstring) : or_else None d = d.
Proof. reflexivity. Qed.

Lemma or_else_truthy (r d : jsstring) : r <> [] -> or_else (Some r) d = r.
Proof. destruct r; [congruence | reflexivity]. Qed.


Lemma or_else_nonempty (a : option jsstring) (d : jsstring) :
  d <> [] -> or_else a d <> [].
Proof.
  intros Hd. destruct a as [[|c s]|]; simpl; auto.
Qed.

Lemma or_else_idem (a : option jsstring) (d : jsstring) :
  d <> [] -> or_else (Some (or_else a d)) d = or_else a d.
Proof. intros Hd. apply or_else_truthy, or_else_nonempty, Hd. Qed.

Lemma defaultTask_idempotent (t : Task) : defaultTask (defaultTask t) = defaultTask t.
Proof.
  unfold defaultTask; cbn -[or_else lit].
  rewrite !or_else_idem by discriminate. reflexivity.
Qed.

Section PlanAssembly.

Variable JSON_stringify : PlanInput -> jsstring.

Local Abbreviation assemble := (assemblePlan JSON_stringify).
Local Abbreviation loop := (runConversationLoop JSON_stringify).


Lemma scanBlocks_scanned whole blocks st p0 evs p evs' :
  scanBlocks JSON_stringify whole blocks st p0 evs = scanned p evs' ->
  p = p0 \/ exists input, p = Some (assemble st input).
Proof.
  revert p0 evs.
  induction blocks as [|b blocks IH]; intros p0 evs Hscan; simpl in Hscan.
  - injection Hscan as <- _. now left.
  - destruct b; try discriminate; try (apply IH in Hscan; exact Hscan).
    apply IH in Hscan. destruct Hscan as [-> | Hex]; [right; eauto | now right].
Qed.



(** A plan returned by the cycle is an assembly of some [output_plan] input
    under the accepted playbook of the conversation. *)
Lemma loop_returns_assembled (script : list AgentReply) :
  forall (wid : jsstring) (store : Store) (evs : list SessionEvent)
    (st : ConversationState) (p : Plan),
  store !! wid = Some st ->
  outcome (loop script wid store evs) = Returned (Some p) ->
  exists st' input, acceptedPlaybook st' = acceptedPlaybook st
                    /\ p = assemble st' input.
Proof.
  induction script as [|reply script IH]; intros wid store evs st p Hst;
    simpl; rewrite Hst.
  - discriminate.
  - destruct reply as [response | msg]; [| discriminate].
    destruct (scanBlocks _ _ _ _ _ _) as [st' evs' | p' evs'] eqn:Hscan.
    + discriminate.
    + destruct (is_end_turn (stop_reason response) && negb (is_some p')).
      * intros Hout. eapply IH in Hout; [| apply lookup_insert_eq].
        destruct Hout as (st' & input & Hacc & ->). exists st', input. split; auto.
      * simpl. intros [= ->].
        apply scanBlocks_scanned in Hscan. destruct Hscan as [? | [input [= ->]]];
          [discriminate |]. exists st, input. split; reflexivity.
Qed.

Lemma acceptPlaybook_attaches_accepted (script : list AgentReply) (wid : jsstring)
    (store : Store) (st : ConversationState) (pb : Playbook) (p : Plan) :
  store !! wid = Some st -> pendingPlaybook st = Some pb ->
  outcome (acceptPlaybook JSON_stringify script wid store) = Returned (Some p) ->
  playbook p = pb.
Proof.
  intros Hst Hpb. unfold acceptPlaybook. rewrite Hst, Hpb. intros Hout.
  eapply loop_returns_assembled in Hout; [| apply lookup_insert_eq].
  destruct Hout as (st' & input & Hacc & ->). simpl. rewrite Hacc. reflexivity.
Qed.


Local Abbreviation scan := (scanBlocks JSON_stringify).

(** Without a pausing call the scan runs to the end of the response and
    yields the assembly of the last [output_plan] input, if there is one. *)
Lemma scan_without_pause (whole blocks : list Block) (st : ConversationState) :
  existsb is_pausing blocks = false ->
  forall (p0 : option Plan) (evs : list SessionEvent),
  exists evs',
    scan whole blocks st p0 evs
    = scanned (match last_plan_input blocks with
               | Some input => Some (assemble st input)
               | None => p0
               end) evs'.
Proof.
  intros Hno. induction blocks as [|b blocks IH]; intros p0 evs; simpl.
  - eexists. reflexivity.
  - simpl in Hno. apply orb_false_elim in Hno as [Hb Hno].
    destruct b; try discriminate; simpl; try (apply IH; exact Hno).
    destruct (IH Hno (Some (assemble st input)) (evs ++ [ev_plan_ready (assemble st input)]))
      as [evs' Hscan].
    exists evs'. rewrite Hscan. destruct (last_plan_input blocks); reflexivity.
Qed.








(** A response whose only block is an [output_plan] call returns the
    assembled plan and touches nothing but the event stream. *)
Lemma loop_output_plan_pure (tid : jsstring) (input : PlanInput) (sr : StopReason)
    (rest : list AgentReply) (wid : jsstring) (store : Store)
    (evs : list SessionEvent) (st : ConversationState) :
  store !! wid = Some st ->
  loop (reply_ok {| resp_content := [output_plan tid input]; stop_reason := sr |} :: rest)
    wid store evs
  = {| outcome := Returned (Some (assemble st input)); store_after := store;
       emitted := evs ++ [ev_plan_ready (assemble st input)];
       script_after := rest |}.
Proof.
  intros Hst. simpl. rewrite Hst. simpl.
  rewrite andb_false_r. reflexivity.
Qed.

(** C9: the tasks of an assembled plan depend on the tool input alone, not
    on the conversation state in which the assembly runs; assembling the
    tasks of an assembled plan again changes nothing, the defaulting of one
    task being idempotent; and the cycle that assembles a plan leaves the
    conversation map as it found it. *)
Theorem plan_assembly_idempotent (st st' : ConversationState) (input : PlanInput) :
  tasks (assemble st' input) = tasks (assemble st input)
  /\ tasks (assemble st' (as_input (assemble st input))) = tasks (assemble st input)
  /\ (forall t, defaultTask (defaultTask t) = defaultTask t)
  /\ (forall (tid : jsstring) (sr : StopReason) (rest : list AgentReply)
             (wid : jsstring) (store : Store) (evs : list SessionEvent),
        store !! wid = Some st ->
        store_after
          (loop (reply_ok {| resp_content := [output_plan tid input];
                             stop_reason := sr |} :: rest) wid store evs)
        = store).
Proof.
  split; [reflexivity |].
  split; [| split; [apply defaultTask_idempotent |]].
  - simpl. rewrite map_map. apply map_ext. intros t. apply defaultTask_idempotent.
  - intros tid sr rest wid store evs Hst.
    rewrite (loop_output_plan_pure tid input sr rest wid store evs st Hst). reflexivity.
Qed.

End PlanAssembly.



Lemma plan_assembly_idempotent_witness :
  store_after (runConversationLoop no_stringify [plan_reply] sample_wid
                 {[ sample_wid := fresh_conversation ]} [])
  = {[ sample_wid := fresh_conversation ]}.
Proof.
  exact (proj2 (proj2 (proj2
           (plan_assembly_idempotent no_stringify fresh_conversation fresh_conversation
              sample_input)))
           (lit "toolu_9") tool_use [] sample_wid {[ sample_wid := fresh_conversation ]} []
           (lookup_singleton_eq _ _)).
Defined.

(** ** Resuming with answers *)

Section Resume.

Variable JSON_stringify : PlanInput -> jsstring.

Local Abbreviation loop := (runConversationLoop JSON_stringify).
Local Abbreviation answer := (continueWithAnswers JSON_stringify).

(** C5: resuming with answers while no questions are pending throws the
    error [No pending questions to answer], emits nothing, consumes no agent
    reply and leaves the conversation map, hence the transcript, both pending
    slots and the accepted playbook, and the workflow as they were. *)
Theorem continueWithAnswers_without_pending (script : list AgentReply)
    (wid : jsstring) (answers : gmap (list N) (list N)) (store : Store) :
  no_pending_questions store wid ->
  answer script wid answers store
  = {| outcome := Thrown (Error (lit "No pending questions to answer"));
       store_after := store; emitted := []; script_after := script |}
  /\ forall (now : Z) (o : Orchestrator), wf_id (state o) = wid ->
       op_world (Orchestrator_answerQuestions JSON_stringify now script answers
                   {| orch := o; convs := store |})
       = {| orch := o; convs := store |}.
Proof.
  unfold no_pending_questions. intros Hnone.
  assert (Heq : answer script wid answers store
                = {| outcome := Thrown (Error (lit "No pending questions to answer"));
                     store_after := store; emitted := []; script_after := script |}).
  { unfold continueWithAnswers.
    destruct (store !! wid) as [st|]; [rewrite Hnone |]; reflexivity. }
  split; [exact Heq |].
  intros now o <-. unfold Orchestrator_answerQuestions, settle. simpl.
  rewrite Heq. reflexivity.
Qed.



End Resume.

Lemma continueWithAnswers_without_pending_witness :
  outcome (continueWithAnswers no_stringify [plan_reply] sample_wid ∅
             {[ sample_wid := fresh_conversation ]})
  = Thrown (Error (lit "No pending questions to answer")).
Proof.
  assert (H : no_pending_questions {[ sample_wid := fresh_conversation ]} sample_wid).
  { unfold no_pending_questions. rewrite lookup_singleton_eq. reflexivity. }
  rewrite (proj1 (continueWithAnswers_without_pending no_stringify [plan_reply]
                    sample_wid ∅ _ H)).
  reflexivity.
Defined.



(** ** The text-only retry *)

Lemma count_corrective_app (a b : list Message) :
  count_corrective (a ++ b) = (count_corrective a + count_corrective b)%nat.
Proof. induction a as [|m a IH]; simpl; [reflexivity | rewrite IH; lia]. Qed.

Lemma count_corrective_retry_turns (rs : list Response) :
  count_corrective (retry_turns rs) = length rs.
Proof.
  induction rs as [|r rs IH]; [reflexivity |].
  change (retry_turns (r :: rs))
    with ({| role := assistant; content := c_blocks (resp_content r) |}
          :: corrective_instruction :: retry_turns rs).
  cbn [count_corrective]. rewrite IH.
  replace (is_corrective corrective_instruction) with true by (vm_compute; reflexivity).
  reflexivity.
Qed.

Lemma with_messages_same (st : ConversationState) :
  with_messages st (messages st) = st.
Proof. destruct st; reflexivity. Qed.

Section Retry.

Variable JSON_stringify : PlanInput -> jsstring.

Local Abbreviation loop := (runConversationLoop JSON_stringify).

Lemma scanBlocks_text (whole blocks : list Block) (st : ConversationState)
    (p : option Plan) (evs : list SessionEvent) :
  forallb is_text blocks = true ->
  scanBlocks JSON_stringify whole blocks st p evs = scanned p (evs ++ block_outputs blocks).
Proof.
  revert evs. induction blocks as [|b blocks IH]; intros evs Htext; simpl.
  - rewrite app_nil_r. reflexivity.
  - destruct b; simpl in Htext; try discriminate.
    rewrite IH by exact Htext. rewrite <- app_assoc. reflexivity.
Qed.

(** Any number of text-only responses is consumed by as many retries. *)
Lemma loop_text_only_retries (rs : list Response) :
  forall (rest : list AgentReply) (wid : jsstring) (store : Store)
         (evs : list SessionEvent) (st : ConversationState),
  store !! wid = Some st ->
  forallb text_only rs = true ->
  loop (map reply_ok rs ++ rest) wid store evs
  = loop rest wid (<[wid := with_messages st (messages st ++ retry_turns rs)]> store)
      (evs ++ retry_outputs rs).
Proof.
  induction rs as [|r rs IH]; intros rest wid store evs st Hst Htext.
  - simpl. rewrite !app_nil_r, with_messages_same, insert_id by exact Hst. reflexivity.
  - simpl in Htext. apply andb_prop in Htext as [Hr Hrs].
    unfold text_only in Hr. apply andb_prop in Hr as [Hblocks Hend].
    cbn [map app runConversationLoop]. rewrite Hst.
    rewrite scanBlocks_text by exact Hblocks.
    rewrite Hend. cbn [is_some negb andb].
    erewrite IH; [| apply lookup_insert_eq | exact Hrs].
    rewrite insert_insert_eq.
    f_equal.
    + f_equal. unfold push, with_messages. cbn [messages pendingQuestions pendingPlaybook
        acceptedPlaybook lastToolUseId].
      f_equal. rewrite <- !app_assoc. reflexivity.
    + unfold retry_outputs. cbn [flat_map]. rewrite app_assoc. reflexivity.
Qed.

(** C6 (amended): a response of free text only that ends the turn makes the
    cycle append the response and the corrective instruction and call the
    agent again, and there is no ceiling: [n] such responses in a row cause
    [n] retries for every [n], after which the cycle goes on with the next
    reply exactly as a cycle entered afresh; with no further reply it is
    still waiting for the agent, it has not failed. *)
Theorem text_only_retries_unbounded (rs : list Response) (rest : list AgentReply)
    (wid : jsstring) (store : Store) (evs : list SessionEvent)
    (st : ConversationState) :
  store !! wid = Some st ->
  forallb text_only rs = true ->
  loop (map reply_ok rs ++ rest) wid store evs
  = loop rest wid (<[wid := with_messages st (messages st ++ retry_turns rs)]> store)
      (evs ++ retry_outputs rs)
  /\ retries_after (loop (map reply_ok rs) wid store evs) wid
     = (count_corrective (messages st) + length rs)%nat
  /\ outcome (loop (map reply_ok rs) wid store evs) = Awaiting.
Proof.
  intros Hst Htext.
  split; [apply loop_text_only_retries; assumption |].
  pose proof (loop_text_only_retries rs [] wid store evs st Hst Htext) as Hrun.
  rewrite app_nil_r in Hrun. rewrite Hrun.
  unfold retries_after. simpl. rewrite !lookup_insert_eq. simpl.
  rewrite lookup_insert_eq. simpl.
  rewrite count_corrective_app, count_corrective_retry_turns. split; reflexivity.
Qed.

End Retry.

Lemma text_only_retries_unbounded_witness :
  retries_after (runConversationLoop no_stringify (map reply_ok (replicate 5 chatter))
                   sample_wid {[ sample_wid := fresh_conversation ]} []) sample_wid
  = 5%nat.
Proof.
  exact (proj1 (proj2 (text_only_retries_unbounded no_stringify (replicate 5 chatter) []
                  sample_wid {[ sample_wid := fresh_conversation ]} []
                  fresh_conversation (lookup_singleton_eq _ _) eq_refl))).
Defined.

(** C6, as stated, fails: no number bounds the text-only retries. *)
Lemma no_retry_ceiling : ~ exists ceiling : nat, retry_ceiling ceiling.
Proof.
  intros [ceiling Hbound].
  specialize (Hbound no_stringify (map reply_ok (replicate (S ceiling) chatter)) sample_wid
                {[ sample_wid := fresh_conversation ]} fresh_conversation
                (lookup_singleton_eq _ _)).
  pose proof (loop_text_only_retries no_stringify (replicate (S ceiling) chatter) []
                sample_wid {[ sample_wid := fresh_conversation ]} []
                fresh_conversation (lookup_singleton_eq _ _)) as Hrun.
  rewrite app_nil_r in Hrun. rewrite Hrun in Hbound.
  - unfold retries_after in Hbound. simpl in Hbound.
    rewrite lookup_insert_eq in Hbound. simpl in Hbound.
    rewrite lookup_insert_eq in Hbound. simpl in Hbound.
    rewrite count_corrective_retry_turns, length_replicate in Hbound.
    unfold is_corrective in Hbound. simpl in Hbound. lia.
  - clear. induction ceiling as [|n IH]; [reflexivity | exact IH].
Qed.

(** ** Workflow phases *)

Section Phases.

Variable JSON_stringify : PlanInput -> jsstring.
Variable toLowerCase : jsstring -> jsstring.

Local Abbreviation reach := (reachable JSON_stringify toLowerCase).
Local Abbreviation step_ := (step JSON_stringify toLowerCase).

Lemma settle_reviewing_with_plan (now : Z) (o : Orchestrator) (store : Store)
    (r : Run (option Plan)) :
  reviewing_with_plan {| orch := o; convs := store |} ->
  reviewing_with_plan (op_world (settle now o r)).
Proof.
  unfold reviewing_with_plan, settle. simpl.
  destruct (outcome r) as [[p|]| |]; simpl; auto.
Qed.

Lemma step_reviewing_with_plan (w : World) (op : Op) :
  reviewing_with_plan w -> reviewing_with_plan (step_ w op).
Proof.
  destruct w as [o store]. intros Hinv.
  destruct op; simpl.
  - unfold Orchestrator_plan. apply settle_reviewing_with_plan with (store := store).
    unfold reviewing_with_plan. simpl. discriminate.
  - apply settle_reviewing_with_plan with (store := store). exact Hinv.
  - apply settle_reviewing_with_plan with (store := store). exact Hinv.
  - apply settle_reviewing_with_plan with (store := store). exact Hinv.
  - unfold Orchestrator_refinePlan. simpl.
    destruct (plan (state o)) eqn:Hplan; [| exact Hinv].
    apply settle_reviewing_with_plan with (store := store).
    destruct (is_returned _); exact Hinv.
  - unfold Orchestrator_review. simpl.
    destruct (plan (state o)) eqn:Hplan; [| exact Hinv].
    destruct (runReviewSession toLowerCase rs p) as [out evs].
    unfold reviewing_with_plan. destruct out; simpl; rewrite Hplan; discriminate.
  - unfold Orchestrator_iterate. simpl.
    destruct (maxIterations (config o) <=? iterations (state o)); [exact Hinv |].
    destruct (last (reviews (state o))) as [lastReview|].
    + apply settle_reviewing_with_plan with (store := store).
      unfold reviewing_with_plan.
      destruct (is_returned _); simpl; discriminate.
    + unfold reviewing_with_plan. simpl. discriminate.
  - unfold reviewing_with_plan. simpl. discriminate.
  - unfold reviewing_with_plan. simpl. discriminate.
Qed.

(** Every reachable workflow in the reviewing phase has a plan. *)
Lemma reachable_reviewing_with_plan (w : World) : reach w -> reviewing_with_plan w.
Proof.
  induction 1 as [cwd now uuid p store | w op Hreach IH].
  - unfold reviewing_with_plan. simpl. discriminate.
  - apply step_reviewing_with_plan, IH.
Qed.

Lemma review_without_plan (now1 now2 : Z) (rs : ReviewStream) (impl : Implementation)
    (w : World) :
  plan (state (orch w)) = None ->
  Orchestrator_review toLowerCase now1 now2 rs impl w
  = {| op_outcome := Thrown (Error (lit "No plan to review against. Call plan() first."));
       op_world := w; op_emitted := [] |}.
Proof. intros Hnone. unfold Orchestrator_review. rewrite Hnone. reflexivity. Qed.

(** C8 (amended): [canTransitionTo] permits the transition into reviewing
    exactly when the phase is planning and a plan exists, and the transition
    into complete exactly when the phase is reviewing, whatever the number of
    recorded review results; [Orchestrator.review] without a plan throws
    [No plan to review against. Call plan() first.] and changes nothing, so
    every reachable workflow in the reviewing phase has a plan. *)
Theorem transition_guards (s : WorkflowState) :
  (canTransitionTo s reviewing = true <-> phase s = planning /\ plan s <> None)
  /\ (canTransitionTo s complete = true <-> phase s = reviewing)
  /\ (forall (now1 now2 : Z) (rs : ReviewStream) (impl : Implementation) (w : World),
        plan (state (orch w)) = None ->
        Orchestrator_review toLowerCase now1 now2 rs impl w
        = {| op_outcome :=
               Thrown (Error (lit "No plan to review against. Call plan() first."));
             op_world := w; op_emitted := [] |})
  /\ (forall w : World, reach w ->
        phase (state (orch w)) = reviewing -> plan (state (orch w)) <> None).
Proof.
  split; [| split; [| split]].
  - unfold canTransitionTo.
    destruct (phase s), (plan s); simpl; split;
      try discriminate; try (intros [? ?]; congruence); intros _; split; congruence.
  - unfold canTransitionTo. destruct (phase s); simpl; split; congruence.
  - intros now1 now2 rs impl w. apply review_without_plan.
  - intros w Hreach. apply reachable_reviewing_with_plan, Hreach.
Qed.

End Phases.

Lemma transition_guards_witness :
  op_outcome (Orchestrator_review ascii_toLowerCase 1 2 failing_review
                sample_implementation new_world)
  = Thrown (Error (lit "No plan to review against. Call plan() first.")).
Proof.
  rewrite (proj1 (proj2 (proj2
             (transition_guards no_stringify ascii_toLowerCase (state (orch new_world)))))
             1 2 failing_review sample_implementation new_world eq_refl).
  reflexivity.
Defined.

(** C8, as stated, fails: a reachable workflow in the reviewing phase with no
    recorded review result is permitted to, and does, become complete. *)
Lemma complete_permitted_without_review :
  reachable no_stringify ascii_toLowerCase unreviewed_world
  /\ phase (state (orch unreviewed_world)) = reviewing
  /\ reviews (state (orch unreviewed_world)) = []
  /\ canTransitionTo (state (orch unreviewed_world)) complete = true
  /\ phase (state (orch (Orchestrator_complete 5 unreviewed_world))) = complete
  /\ reviews (state (orch (Orchestrator_complete 5 unreviewed_world))) = [].
Proof.
  split; [do 2 apply reach_step; apply reach_new |].
  unfold unreviewed_world. vm_compute. repeat split.
Qed.

(** C7: the invariant is broken by completing a workflow that never planned:
    the phase becomes complete while no plan is present. *)
Theorem complete_without_plan :
  let w := Orchestrator_complete 1 new_world in
  reachable no_stringify ascii_toLowerCase w
  /\ phase (state (orch w)) = complete
  /\ plan (state (orch w)) = None
  /\ canTransitionTo (state (orch new_world)) complete = false.
Proof.
  cbv zeta. split; [| repeat split].
  change (Orchestrator_complete 1 new_world)
    with (step no_stringify ascii_toLowerCase new_world (op_complete 1)).
  apply reach_step, reach_new.
Qed.

(** ** Scorer *)

Local Open Scope N_scope.


Lemma search_Some {A : Type} (m : jsstring -> option A) (s : jsstring) (a : A) :
  search m s = Some a -> exists pre suf, s = pre ++ suf /\ m suf = Some a.
Proof.
  induction s as [|c s IH]; simpl.
  - destruct (m []) eqn:E; [| discriminate]. intros [= ->]. exists [], []. auto.
  - destruct (m (c :: s)) eqn:E.
    + intros [= ->]. exists [], (c :: s). auto.
    + intros H. destruct (IH H) as (pre & suf & -> & Hm).
      exists (c :: pre), suf. auto.
Qed.

Lemma match_ci_Some (pat : jsstring) : forall s r,
  match_ci pat s = Some r -> exists m, s = m ++ r /\ spells pat m.
Proof.
  induction pat as [|p pat IH]; intros s r; simpl.
  - intros [= ->]. exists []. split; reflexivity.
  - destruct s as [|c s]; [discriminate |].
    destruct (N.eqb_spec (canonicalize c) (canonicalize p)) as [Hc|]; [| discriminate].
    intros H. destruct (IH _ _ H) as (m & -> & Hm).
    exists (c :: m). split; [reflexivity |].
    unfold spells in *. simpl. rewrite Hc, Hm. reflexivity.
Qed.

Lemma match_ci_spelled (pat : jsstring) : forall m r,
  spells pat m -> match_ci pat (m ++ r) = Some r.
Proof.
  unfold spells.
  induction pat as [|p pat IH]; intros m r Hm.
  - destruct m; [reflexivity | discriminate].
  - destruct m as [|c m]; [discriminate |]. simpl in Hm. injection Hm as Hc Hm.
    simpl. rewrite Hc, N.eqb_refl. apply IH, Hm.
Qed.

Lemma span_spec (p : N -> bool) (s : jsstring) :
  s = fst (span p s) ++ snd (span p s) /\ forallb p (fst (span p s)) = true.
Proof.
  induction s as [|c s [IH1 IH2]]; simpl; [auto |].
  destruct (p c) eqn:Hp; [| auto].
  destruct (span p s) as [run rest]. simpl in *. rewrite Hp, IH2, <- IH1. auto.
Qed.


(** Settle every comparison of the goal that the hypotheses decide. *)
Ltac settle_comparisons :=
  repeat match goal with
         | |- context [?a <=? ?b] =>
             first [ replace (a <=? b) with true by (symmetry; apply N.leb_le; lia)
                   | replace (a <=? b) with false by (symmetry; apply N.leb_gt; lia) ]
         | |- context [?a =? ?b] =>
             first [ replace (a =? b) with false by (symmetry; apply N.eqb_neq; lia)
                   | replace (a =? b) with true by (symmetry; apply N.eqb_eq; lia) ]
         end.

Lemma digit_not_space (d : N) : is_digit d = true -> is_space d = false.
Proof.
  unfold is_digit, is_space. intros H. apply andb_prop in H as [H1 H2].
  apply N.leb_le in H1, H2. settle_comparisons. reflexivity.
Qed.




Lemma spells_length (pat m : jsstring) : spells pat m -> length m = length pat.
Proof.
  unfold spells. intros H. apply (f_equal length) in H.
  rewrite !length_map in H. exact H.
Qed.

Lemma first_alternative_Some (alts : list jsstring) (s k : jsstring) :
  first_alternative alts s = Some k ->
  exists kw rest, In kw alts /\ s = k ++ rest /\ spells kw k.
Proof.
  induction alts as [|a alts IH]; simpl; [discriminate |].
  destruct (match_ci a s) as [r|] eqn:Hm.
  - intros [= <-]. apply match_ci_Some in Hm as (m & -> & Hm).
    rewrite <- (spells_length _ _ Hm), take_app_length.
    exists a, r. auto.
  - intros H. destruct (IH H) as (kw & rest & Hin & Hs & Hk).
    exists kw, rest. auto.
Qed.


Lemma letter_not_space (c x : N) :
  canonicalize c = x -> 65 <= x <= 90 -> is_space c = false.
Proof.
  unfold canonicalize. intros Hc Hx.
  destruct (N.leb_spec 97 c) as [Hlo | Hlo]; simpl in Hc;
    [destruct (N.leb_spec c 122) as [Hhi | Hhi]; simpl in Hc |];
    try (exfalso; lia);
    unfold is_space; settle_comparisons; reflexivity.
Qed.

Lemma keyword_head (kw k : jsstring) :
  In kw keywords -> spells kw k ->
  exists c k', k = c :: k' /\ is_space c = false.
Proof.
  unfold spells. intros Hin Hk.
  assert (Hhead : exists x kw', map canonicalize kw = x :: kw' /\ 65 <= x <= 90).
  { simpl in Hin. destruct Hin as [<- | [<- | [<- | [<- | []]]]];
      eexists _, _; (split; [vm_compute; reflexivity | lia]). }
  destruct Hhead as (x & kw' & Hkw & Hx). rewrite Hkw in Hk.
  destruct k as [|c k']; [discriminate |]. simpl in Hk. injection Hk as Hc _.
  exists c, k'. split; [reflexivity |]. eapply letter_not_space; eauto.
Qed.

Lemma recommendation_here_Some (s k : jsstring) :
  recommendation_here s = Some k ->
  exists m ws kw rest, s = m ++ ws ++ k ++ rest
    /\ spells recommendation_marker m /\ all_spaces ws
    /\ In kw keywords /\ spells kw k.
Proof.
  unfold recommendation_here.
  destruct (match_ci recommendation_marker s) as [r|] eqn:Hm; [| discriminate].
  apply match_ci_Some in Hm as (m & -> & Hm).
  destruct (span_spec is_space r) as [Hr Hws].
  intros H. apply first_alternative_Some in H as (kw & rest & Hin & Hs & Hk).
  exists m, (fst (span is_space r)), kw, rest.
  repeat split; auto.
  rewrite Hr at 1. rewrite Hs. reflexivity.
Qed.



(** The matched keyword, upper-cased, is the keyword itself. *)
Lemma recommendation_keyword (s k : jsstring) :
  search recommendation_here s = Some k -> In (toUpperCase_ascii k) keywords.
Proof.
  intros Hs. apply search_Some in Hs as (pre & suf & -> & Hhere).
  apply recommendation_here_Some in Hhere as (m & ws & kw & rest & _ & _ & _ & Hin & Hk).
  unfold toUpperCase_ascii. rewrite Hk.
  simpl in Hin. destruct Hin as [<- | [<- | [<- | [<- | []]]]]; vm_compute; auto.
Qed.

Lemma buildRecommendedAction_ITERATE (issues_ : list jsstring) :
  buildRecommendedAction (lit "ITERATE") issues_
  = RA_iterate (or_else (head issues_) (lit "Issues found in review")).
Proof.
  unfold buildRecommendedAction.
  repeat match goal with
         | |- context [decide ?P] => destruct (decide P) as [E | E]
         end; try reflexivity; try (vm_compute in E; discriminate).
Qed.


Section ScorerDefaults.

Variable toLowerCase : jsstring -> jsstring.

Local Abbreviation parse := (parseReviewResult toLowerCase).


End ScorerDefaults.


Local Close Scope N_scope.

Example structured_narrative_parsed :
  let r := parseReviewResult ascii_toLowerCase structured_narrative sample_plan in
  confidence r = 85%N
  /\ confidenceLevel r = medium
  /\ issues r = [lit "Naming: rename the handler";
                 lit "Tests: cover the expired session"]
  /\ summary r = lit "Close, two small fixes."
  /\ recommendedAction r = RA_request_changes (issues r)
  /\ map passed (criteriaResults r) = [false].
Proof. vm_compute. repeat split. Qed.

(** A marker without digits is passed over for a later complete one, and a
    score beyond the scale is taken as it stands. *)
Example confidence_leftmost_complete :
  confidence (parseReviewResult ascii_toLowerCase
                (lit "**Confidence Score:** high. **CONFIDENCE SCORE:**250%") sample_plan)
  = 250%N.
Proof. vm_compute. reflexivity. Qed.

(** * Further properties *)

(** ** The conversation engine as a whole *)

Section EngineEffects.

Variable JSON_stringify : PlanInput -> jsstring.

Local Abbreviation loop := (runConversationLoop JSON_stringify).
Local Abbreviation scan := (scanBlocks JSON_stringify).

Lemma extends_refl (st : ConversationState) : extends st st.
Proof. exists []. rewrite app_nil_r. reflexivity. Qed.

Lemma extends_trans (a b c : ConversationState) :
  extends a b -> extends b c -> extends a c.
Proof.
  intros [e1 H1] [e2 H2]. exists (e1 ++ e2). rewrite H2, H1, app_assoc. reflexivity.
Qed.

Lemma scan_suspended_effect (whole blocks : list Block) (st : ConversationState)
    (p0 : option Plan) (evs : list SessionEvent) (st' : ConversationState)
    (evs' : list SessionEvent) :
  scan whole blocks st p0 evs = suspended st' evs' ->
  messages st' = messages st ++ [ {| role := assistant; content := c_blocks whole |} ]
  /\ acceptedPlaybook st' = acceptedPlaybook st
  /\ newly_paused st st'.
Proof.
  revert p0 evs.
  induction blocks as [|b blocks IH]; intros p0 evs Hscan; simpl in Hscan.
  - discriminate.
  - destruct b; try (apply IH in Hscan; exact Hscan);
      injection Hscan as <- _; unfold newly_paused; simpl;
      (split; [reflexivity | split; [reflexivity | split; [reflexivity | auto]]]).
Qed.

(** What one run of the cycle does to the conversation it works on. *)
Lemma loop_effect (script : list AgentReply) :
  forall (wid : jsstring) (store : Store) (evs : list SessionEvent)
         (st : ConversationState),
  store !! wid = Some st ->
  exists st', store_after (loop script wid store evs) !! wid = Some st'
    /\ extends st st'
    /\ acceptedPlaybook st' = acceptedPlaybook st
    /\ (slots_kept st st'
        \/ (outcome (loop script wid store evs) = Returned None
            /\ newly_paused st st')).
Proof.
  induction script as [|reply script IH]; intros wid store evs st Hst;
    simpl; rewrite Hst.
  - simpl. exists st. repeat split; auto using extends_refl. left. repeat split.
  - destruct reply as [response | msg].
    2:{ simpl. exists st. repeat split; auto using extends_refl. left. repeat split. }
    destruct (scanBlocks _ _ _ _ _ _) as [st1 evs1 | p evs1] eqn:Hscan.
    + simpl. rewrite lookup_insert_eq. exists st1.
      apply scan_suspended_effect in Hscan as (Hm & Ha & Hp).
      repeat split; auto. exists [ {| role := assistant;
                                      content := c_blocks (resp_content response) |} ].
      exact Hm.
    + destruct (is_end_turn (stop_reason response) && negb (is_some p)).
      * match goal with
        | |- context [loop script wid (<[wid := ?s2]> store) evs1] =>
            destruct (IH wid (<[wid := s2]> store) evs1 s2 (lookup_insert_eq _ _ _))
              as (st' & Hst' & Hext & Hacc & Hslots)
        end.
        exists st'. split; [exact Hst' |]. split; [| split; [exact Hacc |]].
        -- eapply extends_trans; [| exact Hext]. unfold push. simpl.
           eexists. rewrite <- app_assoc. reflexivity.
        -- destruct Hslots as [Hk | [Ho Hn]]; [left; exact Hk | right].
           split; [exact Ho | exact Hn].
      * simpl. exists st. repeat split; auto using extends_refl. left. repeat split.
Qed.

(** The cycle touches no conversation but the one it is called for. *)
Lemma loop_frame (script : list AgentReply) :
  forall (wid : jsstring) (store : Store) (evs : list SessionEvent) (other : jsstring),
  wid <> other ->
  store_after (loop script wid store evs) !! other = store !! other.
Proof.
  induction script as [|reply script IH]; intros wid store evs other Hne; simpl.
  - destruct (store !! wid); reflexivity.
  - destruct (store !! wid) as [st|]; [| reflexivity].
    destruct reply as [response | msg]; [| reflexivity].
    destruct (scanBlocks _ _ _ _ _ _) as [st1 evs1 | p evs1].
    + simpl. apply lookup_insert_ne, Hne.
    + destruct (is_end_turn (stop_reason response) && negb (is_some p)).
      * rewrite IH by exact Hne. apply lookup_insert_ne, Hne.
      * reflexivity.
Qed.

Lemma conv_run_frame (store : Store) (op : ConvOp) (other : jsstring) :
  conv_wid op <> other ->
  store_after (conv_run JSON_stringify store op) !! other = store !! other.
Proof.
  intros Hne. destruct op; simpl in *.
  - unfold runToolBasedPlanningSession. rewrite loop_frame by exact Hne.
    apply lookup_insert_ne, Hne.
  - unfold continueWithAnswers.
    destruct (store !! wid) as [st|]; [| reflexivity].
    destruct (pendingQuestions st); [| reflexivity].
    rewrite loop_frame by exact Hne. apply lookup_insert_ne, Hne.
  - unfold acceptPlaybook.
    destruct (store !! wid) as [st|]; [| reflexivity].
    destruct (pendingPlaybook st); [| reflexivity].
    rewrite loop_frame by exact Hne. apply lookup_insert_ne, Hne.
  - unfold rejectPlaybook.
    destruct (store !! wid) as [st|]; [| reflexivity].
    destruct (pendingPlaybook st); [| reflexivity].
    rewrite loop_frame by exact Hne. apply lookup_insert_ne, Hne.
  - unfold clearConversationState. apply lookup_delete_ne, Hne.
Qed.

(** X1: starting a session, resuming it, refining its plan or discarding it
    for one workflow leaves the conversation state of every other workflow
    exactly as it was. *)
Theorem operations_isolated (store : Store) (op : ConvOp) (other : jsstring)
    (script : list AgentReply) (feedback : jsstring) :
  conv_wid op <> other ->
  store_after (conv_run JSON_stringify store op) !! other = store !! other
  /\ store_after (refineToolBasedPlan JSON_stringify script (conv_wid op) feedback store)
       !! other = store !! other.
Proof.
  intros Hne. split; [apply conv_run_frame, Hne |].
  unfold refineToolBasedPlan.
  destruct (store !! conv_wid op) as [st|]; [| reflexivity].
  rewrite loop_frame by exact Hne. apply lookup_insert_ne, Hne.
Qed.

(** A run entered with no pending slot leaves at most one set, and none
    when it returns a plan. *)
Lemma loop_from_no_pending (script : list AgentReply) (wid : jsstring)
    (store : Store) (evs : list SessionEvent) (st : ConversationState) :
  store !! wid = Some st -> no_pending st ->
  exists st', store_after (loop script wid store evs) !! wid = Some st'
    /\ at_most_one_pending st'
    /\ (forall p, outcome (loop script wid store evs) = Returned (Some p) ->
          no_pending st').
Proof.
  intros Hst [Hq Hp].
  destruct (loop_effect script wid store evs st Hst) as (st' & Hst' & _ & _ & Hslots).
  exists st'. split; [exact Hst' |].
  destruct Hslots as [(Hq' & Hp' & _) | (Hout & _ & [[_ Hkeep] | [_ Hkeep]])].
  - split; [left; congruence |]. intros _ _. split; congruence.
  - split; [right; congruence |]. intros p Hsome. congruence.
  - split; [left; congruence |]. intros p Hsome. congruence.
Qed.

Lemma conv_run_at (store : Store) (op : ConvOp) :
  exclusive store ->
  forall st', store_after (conv_run JSON_stringify store op) !! conv_wid op = Some st' ->
    at_most_one_pending st'
    /\ (forall p, outcome (conv_run JSON_stringify store op) = Returned (Some p) ->
          no_pending st').
Proof.
  intros Hex st'. destruct op; simpl.
  - unfold runToolBasedPlanningSession.
    match goal with
    | |- context [loop script wid (<[wid := ?s0]> store) ?e] =>
        destruct (loop_from_no_pending script wid (<[wid := s0]> store) e s0
                    (lookup_insert_eq _ _ _)) as (st1 & H1 & Hone & Hplan);
          [split; reflexivity |]
    end.
    rewrite H1. intros [= <-]. split; assumption.
  - unfold continueWithAnswers.
    destruct (store !! wid) as [st|] eqn:Hst; simpl.
    2:{ rewrite Hst. discriminate. }
    destruct (pendingQuestions st) as [qs|] eqn:Hq; simpl.
    2:{ rewrite Hst. intros [= <-]. split; [left; exact Hq | discriminate]. }
    destruct (Hex wid st Hst) as [Hnone | Hnone]; [congruence |].
    match goal with
    | |- context [loop script wid (<[wid := ?s0]> store) ?e] =>
        destruct (loop_from_no_pending script wid (<[wid := s0]> store) e s0
                    (lookup_insert_eq _ _ _)) as (st1 & H1 & Hone & Hplan);
          [split; [reflexivity | exact Hnone] |]
    end.
    rewrite H1. intros [= <-]. split; assumption.
  - unfold acceptPlaybook.
    destruct (store !! wid) as [st|] eqn:Hst; simpl.
    2:{ rewrite Hst. discriminate. }
    destruct (pendingPlaybook st) as [pb|] eqn:Hp; simpl.
    2:{ rewrite Hst. intros [= <-]. split; [right; exact Hp | discriminate]. }
    destruct (Hex wid st Hst) as [Hnone | Hnone]; [| congruence].
    match goal with
    | |- context [loop script wid (<[wid := ?s0]> store) ?e] =>
        destruct (loop_from_no_pending script wid (<[wid := s0]> store) e s0
                    (lookup_insert_eq _ _ _)) as (st1 & H1 & Hone & Hplan);
          [split; [exact Hnone | reflexivity] |]
    end.
    rewrite H1. intros [= <-]. split; assumption.
  - unfold rejectPlaybook.
    destruct (store !! wid) as [st|] eqn:Hst; simpl.
    2:{ rewrite Hst. discriminate. }
    destruct (pendingPlaybook st) as [pb|] eqn:Hp; simpl.
    2:{ rewrite Hst. intros [= <-]. split; [right; exact Hp | discriminate]. }
    destruct (Hex wid st Hst) as [Hnone | Hnone]; [| congruence].
    match goal with
    | |- context [loop script wid (<[wid := ?s0]> store) ?e] =>
        destruct (loop_from_no_pending script wid (<[wid := s0]> store) e s0
                    (lookup_insert_eq _ _ _)) as (st1 & H1 & Hone & Hplan);
          [split; [exact Hnone | reflexivity] |]
    end.
    rewrite H1. intros [= <-]. split; assumption.
  - unfold clearConversationState. rewrite lookup_delete_eq. discriminate.
Qed.

(** X2: if every conversation has at most one of its two pending slots set,
    this is still so after starting a session, answering questions,
    accepting or rejecting a playbook, or discarding a conversation. *)
Theorem pending_slots_exclusive (store : Store) (op : ConvOp) :
  exclusive store -> exclusive (store_after (conv_run JSON_stringify store op)).
Proof.
  intros Hex wid st' Hst'.
  destruct (decide (conv_wid op = wid)) as [<- | Hne].
  - apply (conv_run_at store op Hex st' Hst').
  - rewrite conv_run_frame in Hst' by exact Hne. apply (Hex wid st' Hst').
Qed.

(** X3: under the same condition, when one of these operations returns a
    plan, the conversation it worked on has no pending slot set: a plan is
    never handed out together with an open question or playbook proposal. *)
Theorem returned_plan_nothing_pending (store : Store) (op : ConvOp) (p : Plan)
    (st' : ConversationState) :
  exclusive store ->
  outcome (conv_run JSON_stringify store op) = Returned (Some p) ->
  store_after (conv_run JSON_stringify store op) !! conv_wid op = Some st' ->
  pendingQuestions st' = None /\ pendingPlaybook st' = None.
Proof.
  intros Hex Hout Hst'.
  exact (proj2 (conv_run_at store op Hex st' Hst') p Hout).
Qed.

End EngineEffects.

Section EngineProtocol.

Variable JSON_stringify : PlanInput -> jsstring.

Local Abbreviation loop := (runConversationLoop JSON_stringify).
Local Abbreviation scan := (scanBlocks JSON_stringify).
Local Abbreviation assemble := (assemblePlan JSON_stringify).

(** X4: answering questions, accepting or rejecting a playbook and refining
    a plan never drop or rewrite a turn: the transcript after the operation is
    the transcript before it followed by new turns. *)
Theorem transcript_append_only (store : Store) (op : ConvOp)
    (st : ConversationState) (script : list AgentReply) (feedback : jsstring) :
  store !! conv_wid op = Some st ->
  (is_resume op = true ->
     exists st', store_after (conv_run JSON_stringify store op) !! conv_wid op = Some st'
                 /\ extends st st')
  /\ (exists st',
        store_after (refineToolBasedPlan JSON_stringify script (conv_wid op) feedback store)
          !! conv_wid op = Some st'
        /\ extends st st').
Proof.
  intros Hst. split.
  - intros Hres. destruct op; try discriminate; simpl in *.
    + unfold continueWithAnswers. rewrite Hst.
      destruct (pendingQuestions st) as [qs|]; simpl.
      2:{ exists st. split; [exact Hst | apply extends_refl]. }
      match goal with
      | |- context [loop script0 wid (<[wid := ?s0]> store) ?e] =>
          destruct (loop_effect JSON_stringify script0 wid (<[wid := s0]> store) e s0
                      (lookup_insert_eq _ _ _)) as (st' & H1 & Hext & _)
      end.
      exists st'. split; [exact H1 |].
      eapply extends_trans; [| exact Hext]. eexists. reflexivity.
    + unfold acceptPlaybook. rewrite Hst.
      destruct (pendingPlaybook st) as [pb|]; simpl.
      2:{ exists st. split; [exact Hst | apply extends_refl]. }
      match goal with
      | |- context [loop script0 wid (<[wid := ?s0]> store) ?e] =>
          destruct (loop_effect JSON_stringify script0 wid (<[wid := s0]> store) e s0
                      (lookup_insert_eq _ _ _)) as (st' & H1 & Hext & _)
      end.
      exists st'. split; [exact H1 |].
      eapply extends_trans; [| exact Hext]. eexists. reflexivity.
    + unfold rejectPlaybook. rewrite Hst.
      destruct (pendingPlaybook st) as [pb|]; simpl.
      2:{ exists st. split; [exact Hst | apply extends_refl]. }
      match goal with
      | |- context [loop script0 wid (<[wid := ?s0]> store) ?e] =>
          destruct (loop_effect JSON_stringify script0 wid (<[wid := s0]> store) e s0
                      (lookup_insert_eq _ _ _)) as (st' & H1 & Hext & _)
      end.
      exists st'. split; [exact H1 |].
      eapply extends_trans; [| exact Hext]. eexists. reflexivity.
  - unfold refineToolBasedPlan. rewrite Hst.
    match goal with
    | |- context [loop script ?w (<[?w := ?s0]> store) ?e] =>
        destruct (loop_effect JSON_stringify script w (<[w := s0]> store) e s0
                    (lookup_insert_eq _ _ _)) as (st' & H1 & Hext & _)
    end.
    exists st'. split; [exact H1 |].
    eapply extends_trans; [| exact Hext]. eexists. reflexivity.
Qed.

(** The scan stops at the first pausing call, whatever precedes it. *)
Lemma scan_first_pause (whole pre post : list Block) (b : Block)
    (st : ConversationState) :
  existsb is_pausing pre = false -> is_pausing b = true ->
  forall (p0 : option Plan) (evs : list SessionEvent),
  exists st' evs', scan whole (pre ++ b :: post) st p0 evs = suspended st' evs'
    /\ messages st' = messages st ++ [assistant_turn whole]
    /\ acceptedPlaybook st' = acceptedPlaybook st
    /\ match b with
       | ask_clarifying_questions tid qs =>
           pendingQuestions st' = Some qs /\ lastToolUseId st' = Some tid
           /\ pendingPlaybook st' = pendingPlaybook st
       | propose_playbook tid pb =>
           pendingPlaybook st' = Some pb /\ lastToolUseId st' = Some tid
           /\ pendingQuestions st' = pendingQuestions st
       | _ => True
       end.
Proof.
  intros Hpre Hb.
  induction pre as [|c pre IH]; intros p0 evs.
  - destruct b; try discriminate; simpl; eexists _, _; repeat split.
  - simpl in Hpre. apply orb_false_elim in Hpre as [Hc Hpre].
    destruct c; try discriminate; simpl; apply IH; exact Hpre.
Qed.

(** X5: when a response holds a clarification call, the cycle returns no
    plan even if an [output_plan] call precedes it, the questions become
    pending, and the following resume with answers appends, right after the
    agent's turn, a tool result addressed to the identifier of that call. *)
Theorem questions_then_answers (pre post : list Block) (tid : jsstring)
    (qs : list ClarifyingQuestion) (sr : StopReason) (rest : list AgentReply)
    (wid : jsstring) (store : Store) (evs : list SessionEvent)
    (st : ConversationState) :
  store !! wid = Some st ->
  existsb is_pausing pre = false ->
  tid <> [] ->
  let blocks := pre ++ ask_clarifying_questions tid qs :: post in
  let r := loop (reply_ok {| resp_content := blocks; stop_reason := sr |} :: rest)
             wid store evs in
  outcome r = Returned None
  /\ script_after r = rest
  /\ getPendingQuestions (store_after r) wid = Some qs
  /\ forall (script : list AgentReply) (answers : gmap (list N) (list N)),
       exists st2 body extra,
         store_after (continueWithAnswers JSON_stringify script wid answers (store_after r))
           !! wid = Some st2
         /\ messages st2
            = messages st ++ assistant_turn blocks :: tool_result_turn tid body :: extra.
Proof.
  intros Hst Hpre Htid blocks r. subst r blocks.
  destruct (scan_first_pause (pre ++ ask_clarifying_questions tid qs :: post) pre post
              (ask_clarifying_questions tid qs) st
              Hpre eq_refl None evs) as (st1 & evs1 & Hscan & Hm & _ & Hq & Hid & _).
  cbn [runConversationLoop resp_content stop_reason]. rewrite Hst, Hscan.
  cbn [outcome store_after script_after]. repeat split.
  - unfold getPendingQuestions, chain. rewrite lookup_insert_eq, Hq. reflexivity.
  - intros script answers. unfold continueWithAnswers.
    rewrite lookup_insert_eq, Hq.
    match goal with
    | |- context [loop script wid (<[wid := ?s0]> ?m) ?e] =>
        destruct (loop_effect JSON_stringify script wid (<[wid := s0]> m) e s0
                    (lookup_insert_eq _ _ _)) as (st2 & H2 & [extra Hext] & _)
    end.
    exists st2. eexists. exists extra. split; [exact H2 |].
    rewrite Hext. simpl. rewrite Hm. rewrite <- !app_assoc. simpl.
    unfold tool_use_id_or. rewrite Hid.
    rewrite (or_else_truthy tid _ Htid). reflexivity.
Qed.

(** X6: when a response holds a playbook proposal, the cycle returns no
    plan and the proposal becomes pending; accepting it appends a tool result
    addressed to that call, and every plan the acceptance returns carries
    exactly the proposed playbook. *)
Theorem proposal_then_acceptance (pre post : list Block) (tid : jsstring)
    (pb : Playbook) (sr : StopReason) (rest : list AgentReply)
    (wid : jsstring) (store : Store) (evs : list SessionEvent)
    (st : ConversationState) :
  store !! wid = Some st ->
  existsb is_pausing pre = false ->
  tid <> [] ->
  let blocks := pre ++ propose_playbook tid pb :: post in
  let r := loop (reply_ok {| resp_content := blocks; stop_reason := sr |} :: rest)
             wid store evs in
  outcome r = Returned None
  /\ getPendingPlaybook (store_after r) wid = Some pb
  /\ forall (script : list AgentReply),
       let r2 := acceptPlaybook JSON_stringify script wid (store_after r) in
       (exists st2 body extra,
          store_after r2 !! wid = Some st2
          /\ acceptedPlaybook st2 = Some pb
          /\ messages st2
             = messages st ++ assistant_turn blocks :: tool_result_turn tid body :: extra)
       /\ (forall p, outcome r2 = Returned (Some p) -> playbook p = pb).
Proof.
  intros Hst Hpre Htid blocks r. subst r blocks.
  destruct (scan_first_pause (pre ++ propose_playbook tid pb :: post) pre post
              (propose_playbook tid pb) st
              Hpre eq_refl None evs) as (st1 & evs1 & Hscan & Hm & _ & Hp & Hid & _).
  cbn [runConversationLoop resp_content stop_reason]. rewrite Hst, Hscan.
  cbn [outcome store_after script_after].
  split; [reflexivity | split; [| intros script; split]].
  - unfold getPendingPlaybook, chain. rewrite lookup_insert_eq, Hp. reflexivity.
  - unfold acceptPlaybook. rewrite lookup_insert_eq, Hp.
    match goal with
    | |- context [loop script wid (<[wid := ?s0]> ?m) ?e] =>
        destruct (loop_effect JSON_stringify script wid (<[wid := s0]> m) e s0
                    (lookup_insert_eq _ _ _)) as (st2 & H2 & [extra Hext] & Hacc & _)
    end.
    exists st2. eexists. exists extra. split; [exact H2 |]. split; [exact Hacc |].
    rewrite Hext. simpl. rewrite Hm. rewrite <- !app_assoc. simpl.
    unfold tool_use_id_or. rewrite Hid.
    rewrite (or_else_truthy tid _ Htid). reflexivity.
  - intros p Hout.
    eapply (acceptPlaybook_attaches_accepted JSON_stringify script wid
              (<[wid := st1]> store) st1 pb p); eauto. apply lookup_insert_eq.
Qed.

(** X7: for a response without a pausing call, the cycle returns the plan
    assembled from the last [output_plan] call of the response and leaves the
    conversation map untouched; and when there is no such call and the stop
    reason is not [end_turn] (a truncated answer, say) it returns no plan,
    again without touching the map or asking the agent again. *)
Theorem response_without_pause (blocks : list Block) (sr : StopReason)
    (rest : list AgentReply) (wid : jsstring) (store : Store)
    (evs : list SessionEvent) (st : ConversationState) :
  store !! wid = Some st ->
  existsb is_pausing blocks = false ->
  let r := loop (reply_ok {| resp_content := blocks; stop_reason := sr |} :: rest)
             wid store evs in
  (forall input, last_plan_input blocks = Some input ->
     outcome r = Returned (Some (assemble st input))
     /\ store_after r = store /\ script_after r = rest)
  /\ (last_plan_input blocks = None -> is_end_turn sr = false ->
        outcome r = Returned None /\ store_after r = store /\ script_after r = rest).
Proof.
  intros Hst Hno r. subst r.
  destruct (scan_without_pause JSON_stringify blocks blocks st Hno None evs) as [evs' Hscan].
  cbn [runConversationLoop resp_content stop_reason]. rewrite Hst, Hscan.
  split.
  - intros input Hlast. rewrite Hlast. cbn [is_some negb].
    rewrite andb_false_r. repeat split.
  - intros Hlast Hend. rewrite Hlast, Hend. repeat split.
Qed.

(** X8: accepting or rejecting a playbook while none is pending throws
    [No pending playbook to accept] or [... to reject], and refining a plan
    of a workflow without conversation state throws
    [No conversation state found]; in each case nothing is emitted, no agent
    reply is consumed and the conversation map is unchanged. *)
Theorem playbook_resume_without_pending (script : list AgentReply)
    (wid feedback : jsstring) (store : Store) :
  (no_pending_playbook store wid ->
     acceptPlaybook JSON_stringify script wid store
     = {| outcome := Thrown (Error (lit "No pending playbook to accept"));
          store_after := store; emitted := []; script_after := script |}
     /\ rejectPlaybook JSON_stringify script wid feedback store
        = {| outcome := Thrown (Error (lit "No pending playbook to reject"));
             store_after := store; emitted := []; script_after := script |})
  /\ (store !! wid = None ->
        refineToolBasedPlan JSON_stringify script wid feedback store
        = {| outcome := Thrown (Error (lit "No conversation state found"));
             store_after := store; emitted := []; script_after := script |}).
Proof.
  split.
  - unfold no_pending_playbook, acceptPlaybook, rejectPlaybook.
    destruct (store !! wid) as [st|]; [intros -> |]; split; reflexivity.
  - intros Hnone. unfold refineToolBasedPlan. rewrite Hnone. reflexivity.
Qed.

End EngineProtocol.

(** ** The orchestrator *)

Section OrchestratorProperties.

Variable JSON_stringify : PlanInput -> jsstring.
Variable toLowerCase : jsstring -> jsstring.

Local Abbreviation reach := (reachable JSON_stringify toLowerCase).
Local Abbreviation step_ := (step JSON_stringify toLowerCase).
Local Abbreviation iterate_ := (Orchestrator_iterate JSON_stringify).
Local Abbreviation review_ := (Orchestrator_review toLowerCase).

Lemma settle_keeps (now : Z) (o : Orchestrator) (r : Run (option Plan)) :
  config (orch (op_world (settle now o r))) = config o
  /\ iterations (state (orch (op_world (settle now o r)))) = iterations (state o).
Proof.
  unfold settle. simpl. destruct (outcome r) as [[p|]| |]; split; reflexivity.
Qed.

Lemma step_config (w : World) (op : Op) :
  config (orch (step_ w op)) = config (orch w).
Proof.
  destruct w as [o store]. destruct op; cbn [step orch convs].
  - unfold Orchestrator_plan. cbn [orch convs].
    rewrite (proj1 (settle_keeps _ _ _)). reflexivity.
  - unfold Orchestrator_answerQuestions. cbn [orch convs].
    rewrite (proj1 (settle_keeps _ _ _)). reflexivity.
  - unfold Orchestrator_acceptPlaybook. cbn [orch convs].
    rewrite (proj1 (settle_keeps _ _ _)). reflexivity.
  - unfold Orchestrator_rejectPlaybook. cbn [orch convs].
    rewrite (proj1 (settle_keeps _ _ _)). reflexivity.
  - unfold Orchestrator_refinePlan. cbn [orch convs].
    destruct (plan (state o)); [| reflexivity].
    rewrite (proj1 (settle_keeps _ _ _)). destruct (is_returned _); reflexivity.
  - unfold Orchestrator_review. cbn [orch convs].
    destruct (plan (state o)); [| reflexivity].
    destruct (runReviewSession toLowerCase rs p) as [[r| |] evs]; reflexivity.
  - unfold Orchestrator_iterate. cbn [orch convs].
    destruct (maxIterations (config o) <=? iterations (state o)); [reflexivity |].
    destruct (last (reviews _)); [| reflexivity].
    rewrite (proj1 (settle_keeps _ _ _)). destruct (is_returned _); reflexivity.
  - reflexivity.
  - reflexivity.
Qed.

Lemma step_within_budget (w : World) (op : Op) :
  within_budget w -> within_budget (step_ w op).
Proof.
  unfold within_budget. rewrite step_config.
  destruct w as [o store]. cbn [orch convs]. intros Hinv.
  destruct op; cbn [step orch convs].
  - unfold Orchestrator_plan. cbn [orch convs].
    rewrite (proj2 (settle_keeps _ _ _)). exact Hinv.
  - unfold Orchestrator_answerQuestions. cbn [orch convs].
    rewrite (proj2 (settle_keeps _ _ _)). exact Hinv.
  - unfold Orchestrator_acceptPlaybook. cbn [orch convs].
    rewrite (proj2 (settle_keeps _ _ _)). exact Hinv.
  - unfold Orchestrator_rejectPlaybook. cbn [orch convs].
    rewrite (proj2 (settle_keeps _ _ _)). exact Hinv.
  - unfold Orchestrator_refinePlan. cbn [orch convs].
    destruct (plan (state o)); [| exact Hinv].
    rewrite (proj2 (settle_keeps _ _ _)). destruct (is_returned _); exact Hinv.
  - unfold Orchestrator_review. cbn [orch convs].
    destruct (plan (state o)); [| exact Hinv].
    destruct (runReviewSession toLowerCase rs p) as [[r| |] evs]; exact Hinv.
  - unfold Orchestrator_iterate. cbn [orch convs].
    destruct (Z.leb_spec (maxIterations (config o)) (iterations (state o)));
      [exact Hinv |].
    destruct (last (reviews _)).
    + rewrite (proj2 (settle_keeps _ _ _)). destruct (is_returned _); simpl; lia.
    + simpl. lia.
  - simpl. exact Hinv.
  - simpl. lia.
Qed.

Lemma reachable_fold (ops : list Op) :
  forall w : World, reach w -> reach (fold_left step_ ops w).
Proof.
  induction ops as [|op ops IH]; intros w Hreach; simpl.
  - exact Hreach.
  - apply IH, reach_step, Hreach.
Qed.

(** X9: on every reachable workflow the iteration counter is not negative
    and is either 0 or one more than a count at which the guard of [iterate],
    [iterations >= maxIterations], was false; and no operation ever changes
    the configuration the orchestrator was built with.  The maximum is an
    integer here, so the counter never exceeds it once it is positive. *)
Theorem iterations_within_budget (w : World) :
  reach w ->
  0 <= iterations (state (orch w))
  /\ (iterations (state (orch w)) = 0
      \/ (maxIterations (config (orch w)) <=? iterations (state (orch w)) - 1) = false)
  /\ forall op : Op, config (orch (step_ w op)) = config (orch w).
Proof.
  intros Hreach.
  assert (Hinv : within_budget w).
  { induction Hreach as [cwd now uuid p store | w op Hreach IH].
    - unfold within_budget. simpl. lia.
    - apply step_within_budget, IH. }
  unfold within_budget in Hinv.
  split; [lia |]. split; [| intros op; apply step_config].
  destruct (Z.eq_dec (iterations (state (orch w))) 0) as [Hz | Hnz]; [left; exact Hz |].
  right. apply Z.leb_gt. lia.
Qed.

(** X10: a review against an existing plan never touches the plan, the
    iteration counter or the conversation map and leaves the phase at
    reviewing; a session that ends normally records exactly the returned
    result, the parse of the streamed text, at the end of the review list,
    and a session that throws records nothing. *)
Theorem review_effects (now1 now2 : Z) (rs : ReviewStream) (impl : Implementation)
    (w : World) (p : Plan) :
  plan (state (orch w)) = Some p ->
  let res := review_ now1 now2 rs impl w in
  let s' := state (orch (op_world res)) in
  convs (op_world res) = convs w
  /\ plan s' = Some p
  /\ iterations s' = iterations (state (orch w))
  /\ phase s' = reviewing
  /\ (failure rs = None ->
        op_outcome res = Returned (parseReviewResult toLowerCase (concat (texts rs)) p)
        /\ reviews s' = reviews (state (orch w))
                        ++ [parseReviewResult toLowerCase (concat (texts rs)) p])
  /\ (forall msg, failure rs = Some msg ->
        op_outcome res = Thrown (Error msg)
        /\ reviews s' = reviews (state (orch w))).
Proof.
  intros Hplan res s'. subst s' res.
  unfold Orchestrator_review, runReviewSession. rewrite Hplan.
  destruct (failure rs) as [msg|]; cbn [op_world op_outcome orch convs state
    with_state startReview completeReview plan iterations phase reviews];
    (split; [reflexivity | split; [exact Hplan | split; [reflexivity |
       split; [reflexivity | split]]]]).
  - discriminate.
  - intros m [= <-]. split; reflexivity.
  - intros _. split; reflexivity.
  - discriminate.
Qed.

(** X11: [iterate] at the iteration maximum throws [Max iterations (n)
    reached] and [refinePlan] without a plan throws [No plan to refine. Call
    plan() first.], both without changing anything; [iterate] with iterations
    left but no recorded review throws a type error only after the workflow
    was moved to the planning phase and its counter incremented. *)
Theorem orchestrator_guards (now1 now2 : Z) (script : list AgentReply)
    (feedback : jsstring) (w : World) :
  (maxIterations (config (orch w)) <= iterations (state (orch w)) ->
     iterate_ now1 now2 script feedback w
     = {| op_outcome :=
            Thrown (Error (lit "Max iterations ("
                           ++ show_Z (maxIterations (config (orch w)))
                           ++ lit ") reached"));
          op_world := w; op_emitted := [] |})
  /\ (plan (state (orch w)) = None ->
        Orchestrator_refinePlan JSON_stringify now1 script feedback w
        = {| op_outcome := Thrown (Error (lit "No plan to refine. Call plan() first."));
             op_world := w; op_emitted := [] |})
  /\ (iterations (state (orch w)) < maxIterations (config (orch w)) ->
      reviews (state (orch w)) = [] ->
        let res := iterate_ now1 now2 script feedback w in
        (exists msg, op_outcome res = Thrown (TypeError msg))
        /\ phase (state (orch (op_world res))) = planning
        /\ iterations (state (orch (op_world res))) = iterations (state (orch w)) + 1
        /\ convs (op_world res) = convs w).
Proof.
  split; [| split].
  - intros Hmax. unfold Orchestrator_iterate.
    apply Z.leb_le in Hmax. rewrite Hmax. reflexivity.
  - intros Hnone. unfold Orchestrator_refinePlan. rewrite Hnone. reflexivity.
  - intros Hleft Hrev. cbv zeta. unfold Orchestrator_iterate.
    apply Z.leb_gt in Hleft. rewrite Hleft. simpl. rewrite Hrev. simpl.
    repeat split. eexists. reflexivity.
Qed.

Lemma lists_issue_r (i x y : jsstring) :
  lists_issue i x -> lists_issue i (x ++ y).
Proof.
  intros (before & after & ->). exists before, (after ++ y).
  rewrite <- !app_assoc. reflexivity.
Qed.

Lemma lists_issue_l (i x z : jsstring) :
  lists_issue i x -> lists_issue i (z ++ x).
Proof.
  intros (before & after & ->). exists (z ++ before), after.
  rewrite <- !app_assoc. reflexivity.
Qed.

Lemma prompt_holds_issue (review : ReviewResult) (feedback i : jsstring) :
  In i (issues review) -> lists_issue i (buildIterationPrompt review feedback).
Proof.
  intros Hin. unfold buildIterationPrompt.
  apply lists_issue_r.
  destruct (truthy feedback); [apply lists_issue_r |];
    (destruct (truthy (summary review)); [apply lists_issue_r |]);
    (destruct (issues review) as [|i0 more] eqn:Hi; [destruct Hin |]);
    rewrite <- Hi in *; clear Hi;
    do 3 apply lists_issue_l; apply lists_issue_r;
    (induction (issues review) as [|j js IH]; [destruct Hin |]);
    cbn [map concat];
    (destruct Hin as [-> | Hin];
      [apply lists_issue_r; exists [], []; rewrite app_nil_r; reflexivity
      | apply lists_issue_l, IH, Hin]).
Qed.

(** X12: an iteration with budget left appends to the workflow's transcript
    one user turn that asks for a refinement and quotes the iteration prompt
    built from the last review; that prompt lists every issue of that review
    as a line [- issue]. *)
Theorem iterate_carries_issues (now1 now2 : Z) (script : list AgentReply)
    (feedback : jsstring) (w : World) (st : ConversationState)
    (earlier : list ReviewResult) (lastReview : ReviewResult) :
  iterations (state (orch w)) < maxIterations (config (orch w)) ->
  reviews (state (orch w)) = earlier ++ [lastReview] ->
  convs w !! wf_id (state (orch w)) = Some st ->
  let prompt := buildIterationPrompt lastReview feedback in
  (exists st' extra,
     convs (op_world (iterate_ now1 now2 script feedback w))
       !! wf_id (state (orch w)) = Some st'
     /\ messages st' = messages st ++ refinement_turn prompt :: extra)
  /\ (forall i, In i (issues lastReview) -> lists_issue i prompt).
Proof.
  intros Hleft Hrev Hst prompt. subst prompt. split.
  - unfold Orchestrator_iterate. apply Z.leb_gt in Hleft. rewrite Hleft.
    simpl. rewrite Hrev, last_snoc.
    unfold refineToolBasedPlan. rewrite Hst.
    match goal with
    | |- context [runConversationLoop JSON_stringify script ?w0 (<[?w0 := ?s0]> ?m) ?e] =>
        destruct (loop_effect JSON_stringify script w0 (<[w0 := s0]> m) e s0
                    (lookup_insert_eq _ _ _)) as (st' & H1 & [extra Hext] & _)
    end.
    exists st', extra. unfold settle. simpl. split; [exact H1 |].
    rewrite Hext. simpl. rewrite <- app_assoc. reflexivity.
  - intros i Hin. apply prompt_holds_issue, Hin.
Qed.

End OrchestratorProperties.

(** ** The scorer on well-formed narratives *)

Local Open Scope N_scope.

Lemma fold_digits_pos (d : Decimal.uint) : forall acc : positive,
  fold_left (fun acc d => 10 * acc + (d - 48)) (lit (NilEmpty.string_of_uint d)) (Npos acc)
  = Npos (Pos.of_uint_acc d acc).
Proof.
  induction d as [|d IH|d IH|d IH|d IH|d IH|d IH|d IH|d IH|d IH|d IH]; intros acc;
    [reflexivity | ..];
    (etransitivity; [| apply IH]); cbn [NilEmpty.string_of_uint];
    change (lit (String ?a ?s)) with (N_of_ascii a :: lit s);
    cbn [fold_left]; f_equal; cbn; lia.
Qed.

Lemma fold_digits_zero (d : Decimal.uint) :
  fold_left (fun acc d => 10 * acc + (d - 48)) (lit (NilEmpty.string_of_uint d)) 0
  = N.of_uint d.
Proof.
  unfold N.of_uint.
  induction d as [|d IH|d IH|d IH|d IH|d IH|d IH|d IH|d IH|d IH|d IH];
    [reflexivity | exact IH | ..];
    cbn [Pos.of_uint]; (etransitivity; [| apply fold_digits_pos]); reflexivity.
Qed.

(** Printing a number and parsing the digits gives the number back. *)
Lemma parseInt10_show_N (n : N) : parseInt10 (show_N n) = n.
Proof.
  unfold parseInt10, show_N. rewrite fold_digits_zero. apply DecimalN.Unsigned.of_to.
Qed.

Lemma digits_of_uint (d : Decimal.uint) :
  forallb is_digit (lit (NilEmpty.string_of_uint d)) = true.
Proof.
  induction d as [|d IH|d IH|d IH|d IH|d IH|d IH|d IH|d IH|d IH|d IH];
    [reflexivity | ..]; exact IH.
Qed.

Lemma show_N_digits (n : N) : forallb is_digit (show_N n) = true.
Proof. apply digits_of_uint. Qed.

Lemma show_N_nonempty (n : N) : show_N n <> [].
Proof.
  intros Hnil. pose proof (parseInt10_show_N n) as Hn. rewrite Hnil in Hn.
  cbn in Hn. subst n. discriminate.
Qed.

Lemma span_run (p : N -> bool) (run rest : jsstring) :
  forallb p run = true -> stops p rest -> span p (run ++ rest) = (run, rest).
Proof.
  intros Hrun Hrest. induction run as [|c run IH]; simpl.
  - destruct rest as [|c t]; [reflexivity |]. simpl in *. rewrite Hrest. reflexivity.
  - simpl in Hrun. apply andb_prop in Hrun as [Hc Hrun].
    rewrite Hc, (IH Hrun). reflexivity.
Qed.

Lemma search_skip {A : Type} (m : jsstring -> option A) (pre s : jsstring) :
  (forall c t, In c pre -> m (c :: t) = None) ->
  search m (pre ++ s) = search m s.
Proof.
  intros Hskip. induction pre as [|c pre IH]; [reflexivity |].
  cbn [app search]. rewrite (Hskip c (pre ++ s) (or_introl eq_refl)).
  apply IH. intros c' t Hin. apply Hskip. right. exact Hin.
Qed.

Lemma search_here {A : Type} (m : jsstring -> option A) (s : jsstring) (a : A) :
  m s = Some a -> search m s = Some a.
Proof. intros H. destruct s; simpl; rewrite H; reflexivity. Qed.

Lemma canonicalize_star (c : N) : c <> 42 -> (canonicalize c =? 42) = false.
Proof.
  intros Hc. apply N.eqb_neq. unfold canonicalize.
  destruct (N.leb_spec 97 c); simpl; [destruct (N.leb_spec c 122); simpl |]; lia.
Qed.

Lemma match_ci_star (pat : jsstring) (c : N) (t : jsstring) :
  c <> 42 -> match_ci (42 :: pat) (c :: t) = None.
Proof.
  intros Hc. cbn [match_ci].
  change (canonicalize 42) with 42. rewrite (canonicalize_star c Hc). reflexivity.
Qed.

Lemma star_free_In (pre : jsstring) (c : N) : star_free pre -> In c pre -> c <> 42.
Proof.
  unfold star_free. intros Hpre Hin ->.
  rewrite forallb_forall in Hpre. specialize (Hpre 42 Hin). discriminate.
Qed.

Lemma head_not_space (s rest : jsstring) (p : N -> bool) :
  s <> [] -> forallb p s = true ->
  (forall c, p c = true -> is_space c = false) ->
  stops is_space (s ++ rest).
Proof.
  intros Hs Hp Hsp. destruct s as [|c s]; [congruence |].
  simpl in *. apply andb_prop in Hp as [Hc _]. apply Hsp, Hc.
Qed.

Section WellFormed.

Variable toLowerCase : jsstring -> jsstring.

Local Abbreviation parse := (parseReviewResult toLowerCase).

Lemma confidence_found (pre m ws : jsstring) (n : N) (rest : jsstring) :
  star_free pre -> spells confidence_marker m -> all_spaces ws ->
  stops is_digit rest ->
  search confidence_here (pre ++ m ++ ws ++ show_N n ++ rest) = Some (show_N n).
Proof.
  intros Hpre Hm Hws Hrest.
  rewrite search_skip.
  2:{ intros c t Hin. unfold confidence_here.
      change confidence_marker with (42 :: lit "*Confidence Score:**").
      rewrite match_ci_star by (eapply star_free_In; eauto). reflexivity. }
  apply search_here. unfold confidence_here.
  rewrite (match_ci_spelled _ _ _ Hm).
  rewrite (span_run is_space ws (show_N n ++ rest) Hws).
  2:{ apply (head_not_space _ _ is_digit (show_N_nonempty n) (show_N_digits n)).
      apply digit_not_space. }
  cbn [snd]. rewrite (span_run is_digit (show_N n) rest (show_N_digits n) Hrest).
  destruct (show_N n) eqn:Hshow; [exfalso; eapply show_N_nonempty; eauto |]. reflexivity.
Qed.

(** X13: a narrative whose first asterisk opens the confidence marker (in
    any letter case), followed by optional white space and a number below
    2^53 printed in decimal, yields exactly that number as the confidence,
    and the tier that belongs to it. *)
Theorem confidence_extracted (pre m ws : jsstring) (n : N) (rest : jsstring)
    (p : Plan) :
  n < 2 ^ 53 ->
  star_free pre -> spells confidence_marker m -> all_spaces ws ->
  stops is_digit rest ->
  confidence (parse (pre ++ m ++ ws ++ show_N n ++ rest) p) = n
  /\ confidenceLevel (parse (pre ++ m ++ ws ++ show_N n ++ rest) p)
     = getConfidenceLevel n.
Proof.
  intros _ Hpre Hm Hws Hrest.
  pose proof (confidence_found pre m ws n rest Hpre Hm Hws Hrest) as Hfound.
  unfold parseReviewResult. cbn [confidence confidenceLevel].
  rewrite Hfound, parseInt10_show_N. split; reflexivity.
Qed.

Lemma parsed_level (response : jsstring) (p : Plan) :
  confidenceLevel (parse response p) = getConfidenceLevel (confidence (parse response p)).
Proof. reflexivity. Qed.

(** X14: a parsed review is auto-approved exactly when auto-approval is
    enabled and its confidence is at least 90, whatever it recommends; it is
    handed to the human quick review exactly when its confidence is at least
    90 without auto-approval or between 70 and 89. *)
Theorem parsed_review_routing (cfg : OrchestratorConfig) (st : WorkflowState)
    (response : jsstring) (p : Plan) :
  let r := parse response p in
  (action (route cfg st r) = act_approve
   <-> autoApproveHighConfidence cfg = true /\ 90 <= confidence r)
  /\ (action (route cfg st r) = act_human_review
      <-> (autoApproveHighConfidence cfg = false /\ 90 <= confidence r)
          \/ (70 <= confidence r < 90)).
Proof.
  cbv zeta. unfold route. rewrite parsed_level. unfold getConfidenceLevel.
  set (c := confidence (parse response p)).
  destruct (N.leb_spec 90 c) as [H90 | H90].
  - destruct (autoApproveHighConfidence cfg); cbn [action]; split; split;
      try discriminate; try (intros [? ?]; discriminate); intuition (try discriminate; try lia).
  - destruct (N.leb_spec 70 c) as [H70 | H70].
    + cbn [action]. split; split; try discriminate; intuition (try discriminate; try lia).
    + destruct (maxIterations cfg <=? iterations st)%Z;
        [| destruct (recommendedAction (parse response p))];
        cbn [action]; split; split; try discriminate;
          intuition (try discriminate; try lia).
Qed.

Ltac settle_switch :=
  unfold buildRecommendedAction;
  repeat match goal with
         | |- context [decide ?P] => destruct (decide P)
         end; try reflexivity;
  try (match goal with
       | H : @eq (list N) _ _ |- _ => vm_compute in H; discriminate H
       end);
  try (match goal with
       | H : _ <> _ |- _ => exfalso; apply H; reflexivity
       end).

Lemma buildRecommendedAction_APPROVE (issues_ : list jsstring) :
  buildRecommendedAction (lit "APPROVE") issues_ = RA_approve.
Proof. settle_switch. Qed.

Lemma buildRecommendedAction_REQUEST_CHANGES (issues_ : list jsstring) :
  buildRecommendedAction (lit "REQUEST_CHANGES") issues_ = RA_request_changes issues_.
Proof. settle_switch. Qed.

Lemma buildRecommendedAction_ESCALATE (issues_ : list jsstring) :
  buildRecommendedAction (lit "ESCALATE") issues_
  = RA_escalate (or_else (head issues_) (lit "Major issues require human review")).
Proof. settle_switch. Qed.

Lemma issue_here_text (s text rest : jsstring) :
  issue_here s = Some (text, rest) ->
  exists g1 g2, text = g1 ++ lit ": " ++ g2.
Proof.
  unfold issue_here.
  destruct (span is_digit s) as [ds r1].
  destruct (truthy ds); [| discriminate].
  destruct (match_exact (lit ".") r1) as [r2|]; [| discriminate].
  destruct (span is_space r2) as [ws r3].
  destruct (truthy ws); [| discriminate].
  destruct (match_exact (lit "**") r3) as [r4|]; [| discriminate].
  destruct (span not_star r4) as [g1 r5].
  destruct (truthy g1); [| discriminate].
  destruct (match_exact (lit "**:") r5) as [r6|]; [| discriminate].
  destruct (spaces_then_line r6) as [[g2 rest']|]; [| discriminate].
  intros [= <- <-]. eauto.
Qed.

Lemma issues_from_nonempty (s : jsstring) : forall skip : nat,
  Forall (fun text => text <> []) (issues_from skip s).
Proof.
  induction s as [|c s IH]; intros skip; simpl; [constructor |].
  destruct skip as [|k]; [| apply IH].
  destruct (issue_here (c :: s)) as [[text rest]|] eqn:Hhere; [| apply IH].
  constructor; [| apply IH].
  apply issue_here_text in Hhere as (g1 & g2 & ->).
  intros Hnil. apply app_eq_nil in Hnil as [_ Hnil]. discriminate.
Qed.

(** X15: the recommended action of a parsed review is one of four: approve;
    request-changes carrying all parsed issues; iterate; or escalate, the
    last two with the first parsed issue as reason, or a stock sentence when
    no issue was parsed.  The switch's fall-back action is never produced. *)
Theorem recommended_action_shape (response : jsstring) (p : Plan) :
  let r := parse response p in
  issues r = parseIssues response
  /\ match issues r with
     | [] =>
         recommendedAction r = RA_approve
         \/ recommendedAction r = RA_request_changes []
         \/ recommendedAction r = RA_iterate (lit "Issues found in review")
         \/ recommendedAction r = RA_escalate (lit "Major issues require human review")
     | first :: more =>
         recommendedAction r = RA_approve
         \/ recommendedAction r = RA_request_changes (first :: more)
         \/ recommendedAction r = RA_iterate first
         \/ recommendedAction r = RA_escalate first
     end.
Proof.
  cbv zeta. split; [reflexivity |].
  unfold parseReviewResult. cbn [issues recommendedAction].
  assert (Hkw : In (match search recommendation_here response with
                    | Some kw => toUpperCase_ascii kw
                    | None => lit "ITERATE"
                    end) keywords).
  { destruct (search recommendation_here response) as [k|] eqn:Hs.
    - eapply recommendation_keyword; eauto.
    - simpl. auto. }
  pose proof (issues_from_nonempty response 0) as Hne. fold (parseIssues response) in Hne.
  destruct (parseIssues response) as [|first more].
  - simpl in Hkw. destruct Hkw as [<- | [<- | [<- | [<- | []]]]].
    + left. apply buildRecommendedAction_APPROVE.
    + right; left. apply buildRecommendedAction_REQUEST_CHANGES.
    + right; right; left. apply buildRecommendedAction_ITERATE.
    + right; right; right. apply buildRecommendedAction_ESCALATE.
  - apply Forall_cons in Hne as [Hfirst _].
    simpl in Hkw. destruct Hkw as [<- | [<- | [<- | [<- | []]]]].
    + left. apply buildRecommendedAction_APPROVE.
    + right; left. apply buildRecommendedAction_REQUEST_CHANGES.
    + right; right; left. rewrite buildRecommendedAction_ITERATE.
      cbn [head]. rewrite or_else_truthy by exact Hfirst. reflexivity.
    + right; right; right. rewrite buildRecommendedAction_ESCALATE.
      cbn [head]. rewrite or_else_truthy by exact Hfirst. reflexivity.
Qed.

Lemma criteria_of_task (response : jsstring) (task : Task) (cs : list jsstring) :
  map criterion
    (map (fun c =>
            {| taskId := id task; criterion := c;
               passed := includes response check_mark
                         && includes (toLowerCase response) (take 20 (toLowerCase c));
               evidence := [] |}) cs) = cs.
Proof. induction cs as [|c cs IH]; simpl; [reflexivity | rewrite IH; reflexivity]. Qed.

(** X16: the criteria check yields one result per acceptance criterion, in
    the order of the tasks and of their criteria, never with any evidence;
    and when the narrative holds no check mark, no criterion is passed. *)
Theorem criteria_results (response : jsstring) (p : Plan) :
  map criterion (parseCriteriaResults toLowerCase response p)
  = flat_map acceptanceCriteria (tasks p)
  /\ Forall (fun c => evidence c = []) (parseCriteriaResults toLowerCase response p)
  /\ (includes response check_mark = false ->
        Forall (fun c => passed c = false)
          (parseCriteriaResults toLowerCase response p)).
Proof.
  unfold parseCriteriaResults.
  induction (tasks p) as [|task ts (IH1 & IH2 & IH3)]; simpl.
  - repeat split; constructor.
  - split; [| split].
    + rewrite map_app, IH1, criteria_of_task. reflexivity.
    + apply Forall_app. split; [| exact IH2].
      apply Forall_forall. intros c Hin. apply list_elem_of_In, in_map_iff in Hin
        as (x & <- & _). reflexivity.
    + intros Hno. apply Forall_app. split; [| apply IH3, Hno].
      apply Forall_forall. intros c Hin. apply list_elem_of_In, in_map_iff in Hin
        as (x & <- & _). simpl. rewrite Hno. reflexivity.
Qed.

Lemma spells_cons (p : N) (pat k : jsstring) :
  spells (p :: pat) k ->
  exists c k', k = c :: k' /\ canonicalize c = canonicalize p /\ spells pat k'.
Proof.
  unfold spells. destruct k as [|c k']; [discriminate |].
  cbn [map]. intros [= Hc Hk]. eauto.
Qed.

Lemma match_ci_mismatch (p : N) (pat : jsstring) (c : N) (s : jsstring) :
  canonicalize c <> canonicalize p -> match_ci (p :: pat) (c :: s) = None.
Proof. intros Hne. cbn [match_ci]. apply N.eqb_neq in Hne. rewrite Hne. reflexivity. Qed.

Lemma first_alternative_here (a : jsstring) (alts : list jsstring) (k rest : jsstring) :
  spells a k -> first_alternative (a :: alts) (k ++ rest) = Some k.
Proof.
  intros Hk. cbn [first_alternative]. rewrite (match_ci_spelled _ _ _ Hk).
  rewrite <- (spells_length _ _ Hk), take_app_length. reflexivity.
Qed.

Lemma first_alternative_next (p q : N) (a : jsstring) (alts : list jsstring)
    (c : N) (k rest : jsstring) :
  canonicalize c = canonicalize q -> canonicalize q <> canonicalize p ->
  first_alternative ((p :: a) :: alts) ((c :: k) ++ rest)
  = first_alternative alts ((c :: k) ++ rest).
Proof.
  intros Hc Hne. cbn [first_alternative app].
  rewrite match_ci_mismatch by (rewrite Hc; exact Hne). reflexivity.
Qed.

(** A keyword spelled in any letter case is what the alternation matches. *)
Lemma first_alternative_keyword (kw k rest : jsstring) :
  In kw keywords -> spells kw k -> first_alternative keywords (k ++ rest) = Some k.
Proof.
  intros Hin Hk. unfold keywords in *.
  change (lit "APPROVE") with (65 :: lit "PPROVE") in *.
  change (lit "REQUEST_CHANGES") with (82 :: lit "EQUEST_CHANGES") in *.
  change (lit "ITERATE") with (73 :: lit "TERATE") in *.
  change (lit "ESCALATE") with (69 :: lit "SCALATE") in *.
  destruct Hin as [<- | [<- | [<- | [<- | []]]]].
  - apply first_alternative_here, Hk.
  - destruct (spells_cons _ _ _ Hk) as (c & k' & -> & Hc & _).
    rewrite (first_alternative_next 65 82) by (try exact Hc; vm_compute; discriminate).
    apply first_alternative_here, Hk.
  - destruct (spells_cons _ _ _ Hk) as (c & k' & -> & Hc & _).
    rewrite (first_alternative_next 65 73) by (try exact Hc; vm_compute; discriminate).
    rewrite (first_alternative_next 82 73) by (try exact Hc; vm_compute; discriminate).
    apply first_alternative_here, Hk.
  - destruct (spells_cons _ _ _ Hk) as (c & k' & -> & Hc & _).
    rewrite (first_alternative_next 65 69) by (try exact Hc; vm_compute; discriminate).
    rewrite (first_alternative_next 82 69) by (try exact Hc; vm_compute; discriminate).
    rewrite (first_alternative_next 73 69) by (try exact Hc; vm_compute; discriminate).
    apply first_alternative_here, Hk.
Qed.

Lemma keyword_upper (kw k : jsstring) :
  In kw keywords -> spells kw k -> toUpperCase_ascii k = kw.
Proof.
  unfold spells, toUpperCase_ascii. intros Hin ->.
  simpl in Hin. destruct Hin as [<- | [<- | [<- | [<- | []]]]]; reflexivity.
Qed.

Lemma recommendation_found (pre m ws k kw rest : jsstring) :
  star_free pre -> spells recommendation_marker m -> all_spaces ws ->
  In kw keywords -> spells kw k ->
  search recommendation_here (pre ++ m ++ ws ++ k ++ rest) = Some k.
Proof.
  intros Hpre Hm Hws Hin Hk.
  rewrite search_skip.
  2:{ intros c t Hc. unfold recommendation_here.
      change recommendation_marker with (42 :: lit "*Recommendation:**").
      rewrite match_ci_star by (eapply star_free_In; eauto). reflexivity. }
  apply search_here. unfold recommendation_here.
  rewrite (match_ci_spelled _ _ _ Hm).
  rewrite (span_run is_space ws (k ++ rest) Hws).
  2:{ destruct (keyword_head kw k Hin Hk) as (c & k' & -> & Hc). exact Hc. }
  cbn [snd]. apply (first_alternative_keyword kw k rest Hin Hk).
Qed.

(** X17: a narrative whose first asterisk opens the recommendation marker
    (in any letter case), followed by optional white space and one of the
    four keywords in any letter case, yields the action of that keyword:
    approve, request-changes with the parsed issues, iterate or escalate. *)
Theorem recommendation_extracted (pre m ws k kw rest : jsstring) (p : Plan) :
  star_free pre -> spells recommendation_marker m -> all_spaces ws ->
  In kw keywords -> spells kw k ->
  let text := pre ++ m ++ ws ++ k ++ rest in
  let ra := recommendedAction (parse text p) in
  (kw = lit "APPROVE" -> ra = RA_approve)
  /\ (kw = lit "REQUEST_CHANGES" -> ra = RA_request_changes (parseIssues text))
  /\ (kw = lit "ITERATE" -> exists reason_, ra = RA_iterate reason_)
  /\ (kw = lit "ESCALATE" -> exists reason_, ra = RA_escalate reason_).
Proof.
  intros Hpre Hm Hws Hin Hk text ra.
  assert (Hra : ra = buildRecommendedAction kw (parseIssues text)).
  { subst ra text. unfold parseReviewResult. cbn [recommendedAction].
    rewrite (recommendation_found pre m ws k kw rest Hpre Hm Hws Hin Hk).
    rewrite (keyword_upper kw k Hin Hk). reflexivity. }
  rewrite Hra. repeat split; intros ->.
  - apply buildRecommendedAction_APPROVE.
  - apply buildRecommendedAction_REQUEST_CHANGES.
  - eexists. apply buildRecommendedAction_ITERATE.
  - eexists. apply buildRecommendedAction_ESCALATE.
Qed.

Lemma match_exact_app (pat r : jsstring) : match_exact pat (pat ++ r) = Some r.
Proof.
  induction pat as [|c pat IH]; [reflexivity |].
  cbn [app match_exact]. rewrite N.eqb_refl. exact IH.
Qed.

Lemma truthy_nonempty (s : jsstring) : s <> [] -> truthy s = true.
Proof. destruct s; [congruence | reflexivity]. Qed.

Lemma spaces_then_line_found (ws text rest : jsstring) :
  all_spaces ws -> forallb not_newline text = true ->
  (exists c t, text = c :: t /\ is_space c = false) ->
  stops not_newline rest ->
  spaces_then_line (ws ++ text ++ rest) = Some (text, rest).
Proof.
  intros Hws Htext (c & t & -> & Hc) Hrest.
  assert (Hline : line_here ((c :: t) ++ rest) = Some (c :: t, rest)).
  { unfold line_here. rewrite (span_run not_newline (c :: t) rest Htext Hrest).
    reflexivity. }
  assert (Hhere : spaces_then_line ((c :: t) ++ rest) = Some (c :: t, rest)).
  { cbn [app spaces_then_line]. rewrite Hc. exact Hline. }
  set (tail := (c :: t) ++ rest) in *. clearbody tail.
  induction ws as [|w ws IH]; [exact Hhere |].
  unfold all_spaces in Hws. simpl in Hws. apply andb_prop in Hws as [Hw Hws].
  cbn [app spaces_then_line]. rewrite Hw, (IH Hws). reflexivity.
Qed.

Lemma issue_here_line (n : N) (ws1 title_ ws2 text rest : jsstring) :
  ws1 <> [] -> all_spaces ws1 ->
  title_ <> [] -> star_free title_ ->
  all_spaces ws2 -> forallb not_newline text = true ->
  (exists c t, text = c :: t /\ is_space c = false) ->
  stops not_newline rest ->
  issue_here (show_N n ++ lit "." ++ ws1 ++ lit "**" ++ title_ ++ lit "**:"
              ++ ws2 ++ text ++ rest)
  = Some (title_ ++ lit ": " ++ text, rest).
Proof.
  intros Hws1 Hsp1 Ht Hstar Hsp2 Htext Hhead Hrest. unfold issue_here.
  rewrite (span_run is_digit (show_N n) _ (show_N_digits n)) by exact eq_refl.
  rewrite (truthy_nonempty _ (show_N_nonempty n)), match_exact_app.
  rewrite (span_run is_space ws1 _ Hsp1) by exact eq_refl.
  rewrite (truthy_nonempty _ Hws1), match_exact_app.
  rewrite (span_run not_star title_ _ Hstar) by exact eq_refl.
  rewrite (truthy_nonempty _ Ht), match_exact_app.
  rewrite (spaces_then_line_found ws2 text rest Hsp2 Htext Hhead Hrest).
  reflexivity.
Qed.

Lemma issues_from_skip (a rest : jsstring) :
  issues_from (length a) (a ++ rest) = issues_from 0 rest.
Proof. induction a as [|c a IH]; [reflexivity | exact IH]. Qed.

Lemma issues_from_line (line rest text : jsstring) :
  line <> [] -> issue_here (line ++ rest) = Some (text, rest) ->
  issues_from 0 (line ++ rest) = text :: issues_from 0 rest.
Proof.
  intros Hline Hhere. destruct line as [|c l]; [congruence |].
  cbn [app] in *. cbn [issues_from]. rewrite Hhere. f_equal.
  cbn [length]. rewrite length_app.
  replace (S (length l + length rest) - length rest - 1)%nat with (length l) by lia.
  apply issues_from_skip.
Qed.

Lemma render_item_parsed (it : IssueItem) (more : jsstring) :
  well_formed_item it ->
  parseIssues (render_item it ++ more) = item_issue it :: parseIssues more.
Proof.
  intros (Ht & Hstar & Htext & Hhead). unfold parseIssues, render_item.
  set (line := show_N (item_number it) ++ lit "." ++ lit " " ++ lit "**"
               ++ item_title it ++ lit "**:" ++ lit " " ++ item_text it).
  transitivity (issues_from 0 (line ++ nl ++ more)).
  { f_equal. unfold line. rewrite <- !app_assoc. reflexivity. }
  rewrite (issues_from_line line (nl ++ more) (item_issue it)).
  - reflexivity.
  - unfold line. intros Hnil. apply app_eq_nil in Hnil as [Hnil _].
    exact (show_N_nonempty _ Hnil).
  - unfold line. rewrite <- !app_assoc.
    apply (issue_here_line (item_number it) (lit " ") (item_title it) (lit " ")
             (item_text it) (nl ++ more)); auto; try discriminate; reflexivity.
Qed.

(** X18: a numbered list written in the prescribed format, one item a
    line, is parsed into exactly its items, in order, each as
    [title: description], whatever text follows the list. *)
Theorem issue_list_parsed (items : list IssueItem) (more : jsstring) :
  Forall well_formed_item items ->
  parseIssues (concat (map render_item items) ++ more)
  = map item_issue items ++ parseIssues more.
Proof.
  induction 1 as [|it items Hit Hitems IH]; [reflexivity |].
  cbn [map concat]. rewrite <- app_assoc.
  rewrite (render_item_parsed it _ Hit), IH. reflexivity.
Qed.

End WellFormed.

Local Close Scope N_scope.

(** ** Retries followed by a plan or a failure *)

Section RetryOutcomes.

Variable JSON_stringify : PlanInput -> jsstring.

Local Abbreviation loop := (runConversationLoop JSON_stringify).
Local Abbreviation assemble := (assemblePlan JSON_stringify).

(** X19: when the agent answers with free text any number of times and then
    calls [output_plan], the cycle returns the plan assembled from that call;
    the transcript has gained the retry turns and nothing else, in
    particular no turn for the response that carried the plan. *)
Theorem plan_after_retries (rs : list Response) (tid : jsstring) (input : PlanInput)
    (sr : StopReason) (rest : list AgentReply) (wid : jsstring) (store : Store)
    (evs : list SessionEvent) (st : ConversationState) :
  store !! wid = Some st ->
  forallb text_only rs = true ->
  let st' := with_messages st (messages st ++ retry_turns rs) in
  let r := loop (map reply_ok rs
                 ++ reply_ok {| resp_content := [output_plan tid input];
                                stop_reason := sr |} :: rest) wid store evs in
  outcome r = Returned (Some (assemble st input))
  /\ store_after r = <[wid := st']> store
  /\ script_after r = rest
  /\ emitted r = evs ++ retry_outputs rs ++ [ev_plan_ready (assemble st input)].
Proof.
  intros Hst Htext st' r. subst r st'.
  rewrite (loop_text_only_retries JSON_stringify rs _ wid store evs st Hst Htext).
  rewrite (loop_output_plan_pure JSON_stringify tid input sr rest wid _ _ _
             (lookup_insert_eq _ _ _)).
  cbn [outcome store_after script_after emitted].
  rewrite <- app_assoc. repeat split.
Qed.

(** X20: when the agent call fails after any number of text-only answers,
    the cycle throws the agent's error, its last event is the error event
    [Planning failed: ...], the failed call is consumed without a retry, and
    the retry turns appended so far stay in the transcript. *)
Theorem failure_after_retries (rs : list Response) (msg : jsstring)
    (rest : list AgentReply) (wid : jsstring) (store : Store)
    (evs : list SessionEvent) (st : ConversationState) :
  store !! wid = Some st ->
  forallb text_only rs = true ->
  loop (map reply_ok rs ++ reply_error msg :: rest) wid store evs
  = {| outcome := Thrown (Error msg);
       store_after := <[wid := with_messages st (messages st ++ retry_turns rs)]> store;
       emitted := (evs ++ retry_outputs rs) ++ [ev_error (lit "Planning failed: " ++ msg)];
       script_after := rest |}.
Proof.
  intros Hst Htext.
  rewrite (loop_text_only_retries JSON_stringify rs _ wid store evs st Hst Htext).
  cbn [runConversationLoop]. rewrite lookup_insert_eq. reflexivity.
Qed.

End RetryOutcomes.

(** ** Instances *)

Lemma sample_wids_differ : sample_wid <> other_wid.
Proof. discriminate. Qed.

Lemma asking_store_exclusive :
  exclusive ({[ sample_wid := asking_conversation ]} : Store).
Proof.
  intros wid st Hst. apply lookup_singleton_Some in Hst as [_ <-].
  right. reflexivity.
Qed.

Lemma operations_isolated_witness :
  store_after (conv_run no_stringify two_conversations
                 (conv_answer [plan_reply] sample_wid ∅)) !! other_wid
  = Some paused_conversation.
Proof.
  rewrite (proj1 (operations_isolated no_stringify two_conversations
                    (conv_answer [plan_reply] sample_wid ∅) other_wid [] []
                    sample_wids_differ)).
  apply lookup_insert_eq.
Defined.

Lemma pending_slots_exclusive_witness :
  exclusive (store_after (conv_run no_stringify {[ sample_wid := asking_conversation ]}
                            (conv_answer [proposing_reply] sample_wid ∅))).
Proof.
  exact (pending_slots_exclusive no_stringify _ _ asking_store_exclusive).
Defined.

Lemma returned_plan_nothing_pending_witness :
  match store_after (conv_run no_stringify {[ sample_wid := asking_conversation ]}
                       (conv_answer [plan_reply] sample_wid ∅)) !! sample_wid with
  | Some st' => pendingQuestions st' = None /\ pendingPlaybook st' = None
  | None => False
  end.
Proof.
  destruct (store_after (conv_run no_stringify {[ sample_wid := asking_conversation ]}
                           (conv_answer [plan_reply] sample_wid ∅)) !! sample_wid)
    as [st'|] eqn:Hst'.
  - destruct (outcome (conv_run no_stringify {[ sample_wid := asking_conversation ]}
                         (conv_answer [plan_reply] sample_wid ∅)))
      as [[p|]| |] eqn:Hout; try (vm_compute in Hout; discriminate).
    exact (returned_plan_nothing_pending no_stringify _ _ p st'
             asking_store_exclusive Hout Hst').
  - vm_compute in Hst'. discriminate.
Defined.

Lemma transcript_append_only_witness :
  exists st',
    store_after (conv_run no_stringify {[ sample_wid := asking_conversation ]}
                   (conv_answer [plan_reply] sample_wid ∅)) !! sample_wid = Some st'
    /\ extends asking_conversation st'.
Proof.
  exact (proj1 (transcript_append_only no_stringify
                  {[ sample_wid := asking_conversation ]}
                  (conv_answer [plan_reply] sample_wid ∅) asking_conversation [] []
                  (lookup_singleton_eq _ _)) eq_refl).
Defined.

Lemma questions_then_answers_witness :
  getPendingQuestions
    (store_after (runConversationLoop no_stringify [asking_reply] sample_wid
                    {[ sample_wid := fresh_conversation ]} [])) sample_wid
  = Some [sample_question].
Proof.
  exact (proj1 (proj2 (proj2
           (questions_then_answers no_stringify
              [text_block (lit "One question first.")] [] (lit "toolu_1")
              [sample_question] tool_use [] sample_wid
              {[ sample_wid := fresh_conversation ]} [] fresh_conversation
              (lookup_singleton_eq _ _) eq_refl ltac:(discriminate))))).
Defined.

Lemma proposal_then_acceptance_witness :
  getPendingPlaybook
    (store_after (runConversationLoop no_stringify [proposing_reply] sample_wid
                    {[ sample_wid := fresh_conversation ]} [])) sample_wid
  = Some fallback_playbook.
Proof.
  exact (proj1 (proj2
           (proposal_then_acceptance no_stringify [] [] (lit "toolu_2")
              fallback_playbook tool_use [] sample_wid
              {[ sample_wid := fresh_conversation ]} [] fresh_conversation
              (lookup_singleton_eq _ _) eq_refl ltac:(discriminate)))).
Defined.

Lemma response_without_pause_witness :
  outcome (runConversationLoop no_stringify [plan_reply] sample_wid
             {[ sample_wid := fresh_conversation ]} [])
  = Returned (Some sample_plan).
Proof.
  exact (proj1 (proj1
           (response_without_pause no_stringify [output_plan (lit "toolu_9") sample_input]
              tool_use [] sample_wid {[ sample_wid := fresh_conversation ]} []
              fresh_conversation (lookup_singleton_eq _ _) eq_refl)
           sample_input eq_refl)).
Defined.

Lemma playbook_resume_without_pending_witness :
  outcome (acceptPlaybook no_stringify [plan_reply] sample_wid
             {[ sample_wid := asking_conversation ]})
  = Thrown (Error (lit "No pending playbook to accept")).
Proof.
  assert (H : no_pending_playbook {[ sample_wid := asking_conversation ]} sample_wid).
  { unfold no_pending_playbook. rewrite lookup_singleton_eq. reflexivity. }
  rewrite (proj1 (proj1 (playbook_resume_without_pending no_stringify [plan_reply]
                           sample_wid [] {[ sample_wid := asking_conversation ]}) H)).
  reflexivity.
Defined.

Lemma iterations_within_budget_witness :
  iterations (state (orch iterated_world)) = 3
  /\ maxIterations (config (orch iterated_world)) = 3
  /\ 0 <= iterations (state (orch iterated_world))
  /\ (iterations (state (orch iterated_world)) = 0
      \/ (maxIterations (config (orch iterated_world))
           <=? iterations (state (orch iterated_world)) - 1) = false).
Proof.
  split; [vm_compute; reflexivity |].
  split; [vm_compute; reflexivity |].
  destruct (iterations_within_budget no_stringify ascii_toLowerCase iterated_world
              (reachable_fold no_stringify ascii_toLowerCase iteration_ops new_world
                 (reach_new _ _ _ _ _ _ _)))
    as (Hlow & Hguard & _).
  split; [exact Hlow | exact Hguard].
Defined.

Lemma review_effects_witness :
  phase (state (orch (op_world (Orchestrator_review ascii_toLowerCase 5 6
                                  failing_review sample_implementation reviewed_world))))
  = reviewing.
Proof.
  exact (proj1 (proj2 (proj2 (proj2
           (review_effects ascii_toLowerCase 5 6 failing_review sample_implementation
              reviewed_world sample_plan eq_refl))))).
Defined.

Lemma orchestrator_guards_witness :
  op_outcome (Orchestrator_refinePlan no_stringify 1 [plan_reply] (lit "shorter") new_world)
  = Thrown (Error (lit "No plan to refine. Call plan() first.")).
Proof.
  rewrite (proj1 (proj2 (orchestrator_guards no_stringify 1 2 [plan_reply]
                           (lit "shorter") new_world)) eq_refl).
  reflexivity.
Defined.

Lemma iterate_carries_issues_witness :
  lists_issue (lit "Tests: cover the expired session")
    (buildIterationPrompt sample_review (lit "be thorough")).
Proof.
  refine (proj2 (iterate_carries_issues no_stringify 5 6 [plan_reply] (lit "be thorough")
                   reviewed_world fresh_conversation [] sample_review _ eq_refl
                   (lookup_singleton_eq _ _)) _ _).
  - simpl. lia.
  - left. reflexivity.
Defined.

Lemma confidence_extracted_witness :
  confidence (parseReviewResult ascii_toLowerCase
                (scored_prefix ++ lit "**confidence score:**" ++ lit " "
                 ++ show_N 85 ++ nl) sample_plan) = 85%N.
Proof.
  exact (proj1 (confidence_extracted ascii_toLowerCase scored_prefix
                  (lit "**confidence score:**") (lit " ") 85 nl sample_plan
                  eq_refl eq_refl eq_refl eq_refl eq_refl)).
Defined.

Lemma recommendation_extracted_witness :
  exists reason_,
    recommendedAction (parseReviewResult ascii_toLowerCase
                         (scored_prefix ++ lit "**Recommendation:**" ++ lit " "
                          ++ lit "Escalate" ++ nl) sample_plan)
    = RA_escalate reason_.
Proof.
  refine (proj2 (proj2 (proj2
            (recommendation_extracted ascii_toLowerCase scored_prefix
               (lit "**Recommendation:**") (lit " ") (lit "Escalate") (lit "ESCALATE")
               nl sample_plan eq_refl eq_refl eq_refl _ eq_refl))) eq_refl).
  right; right; right; left. reflexivity.
Defined.

Lemma sample_item_well_formed : well_formed_item sample_item.
Proof.
  repeat split; try discriminate. eexists _, _. split; reflexivity.
Qed.

Lemma issue_list_parsed_witness :
  parseIssues (concat (map render_item [sample_item]) ++ lit "## Summary")
  = [lit "Tests: cover the expired session"].
Proof.
  rewrite (issue_list_parsed [sample_item] (lit "## Summary")
             ltac:(constructor; [apply sample_item_well_formed | constructor])).
  reflexivity.
Defined.

Lemma plan_after_retries_witness :
  outcome (runConversationLoop no_stringify
             (map reply_ok [chatter; chatter] ++ [plan_reply]) sample_wid
             {[ sample_wid := fresh_conversation ]} [])
  = Returned (Some sample_plan).
Proof.
  exact (proj1 (plan_after_retries no_stringify [chatter; chatter] (lit "toolu_9")
                  sample_input tool_use [] sample_wid
                  {[ sample_wid := fresh_conversation ]} [] fresh_conversation
                  (lookup_singleton_eq _ _) eq_refl)).
Defined.

Lemma failure_after_retries_witness :
  outcome (runConversationLoop no_stringify
             (map reply_ok [chatter] ++ [reply_error (lit "timeout")]) sample_wid
             {[ sample_wid := fresh_conversation ]} [])
  = Thrown (Error (lit "timeout")).
Proof.
  rewrite (failure_after_retries no_stringify [chatter] (lit "timeout") [] sample_wid
             {[ sample_wid := fresh_conversation ]} [] fresh_conversation
             (lookup_singleton_eq _ _) eq_refl).
  reflexivity.
Defined.
